(** * Deployment watcher (nomad/deploymentwatcher/deployment_watcher.go)

    A shallow embedding of the deployment watcher: its data, the calls it
    makes on its collaborators (state reader, write trigger, rate limiter,
    logger), its RPC-style operations, one cycle of its watch loop and the
    evaluation batcher, followed by the properties established about them. *)

From Stdlib Require Import ZArith NArith DecimalString.
From Stdlib Require DecimalPos DecimalN.
From stdpp Require Import base strings gmap list.

Local Open Scope string_scope.
Local Open Scope list_scope.
Local Open Scope N_scope.

(** ** Go values *)

(** A Go [error] value.  The only error the watcher compares against is
    [context.Canceled]; every other error is opaque to it. *)
Inductive error : Type :=
| context_Canceled
| errors_New (msg : string).

(** [time.Duration] counts nanoseconds. *)
Definition time_Second : Z := 1000000000%Z.

(** evalBatchPeriod is the batching length before creating an evaluation. *)
Definition evalBatchPeriod : Z := (1 * time_Second)%Z.

(** ** Package structs: the records the watcher reads and builds.
    [uint64] fields are [N]; the watcher only compares them. *)
Module structs.

Record UpdateStrategy := { AutoRevert : bool }.

Record TaskGroup := {
  TaskGroup_Name : string;
  TaskGroup_Update : option UpdateStrategy   (* nil when absent *)
}.

Record Job := {
  Job_ID : string;
  Job_Priority : Z;
  Job_Type : string;
  Job_Version : N;
  Job_Stable : bool;
  Job_TaskGroups : list TaskGroup
}.

Record Deployment := {
  Deployment_ID : string;
  Deployment_JobID : string
}.

Record AllocDeploymentStatus := {
  Healthy : option bool;      (* nil while health is unset *)
  ModifyIndex : N
}.

(** Modelled from the spec: the method [IsUnhealthy] of the allocation's
    deployment status is declared in package structs, outside the watcher's
    file; the spec gives the health flag three values (healthy, unhealthy,
    unset), and unhealthy is the flag being set to false. *)
Definition IsUnhealthy (ds : AllocDeploymentStatus) : bool :=
  match Healthy ds with
  | Some false => true
  | _ => false
  end.

Record AllocListStub := {
  Alloc_ID : string;
  Alloc_TaskGroup : string;
  Alloc_DeploymentStatus : option AllocDeploymentStatus
}.

Record Evaluation := {
  Eval_ID : string;
  Eval_Priority : Z;
  Eval_Type : string;
  Eval_TriggeredBy : string;
  Eval_JobID : string;
  Eval_DeploymentID : string;
  Eval_Status : string;
  Eval_SnapshotIndex : N;
  Eval_CreateIndex : N
}.

Record DeploymentStatusUpdate := {
  DSU_DeploymentID : string;
  DSU_Status : string;
  DSU_StatusDescription : string
}.

Record DeploymentSpecificRequest := {
  DSR_DeploymentID : string;
  DSR_MinQueryIndex : N
}.

Record JobSpecificRequest := { JSR_JobID : string }.

Record AllocListResponse := {
  ALR_Allocations : list AllocListStub;
  ALR_Index : N
}.

Record JobEvaluationsResponse := {
  JER_Evaluations : list Evaluation;
  JER_Index : N
}.

Record JobVersionsResponse := { JVR_Versions : list Job }.

Record DeploymentAllocHealthRequest := {
  DAH_DeploymentID : string;
  HealthyAllocationIDs : list string;
  UnhealthyAllocationIDs : list string
}.

Record ApplyDeploymentAllocHealthRequest := {
  ADAH_Request : DeploymentAllocHealthRequest;
  ADAH_Eval : Evaluation;
  ADAH_DeploymentUpdate : option DeploymentStatusUpdate;
  ADAH_Job : option Job
}.

Record DeploymentPauseRequest := {
  DPR_DeploymentID : string;
  Pause : bool
}.

Record DeploymentUpdateResponse := {
  EvalID : string;
  EvalCreateIndex : N;
  DeploymentModifyIndex : N
}.

(** The string constants of package structs that the watcher uses.  Their
    declarations are not part of the watcher's file, so they are taken as
    parameters. *)
Record Constants := {
  DeploymentStatusRunning : string;
  DeploymentStatusPaused : string;
  DeploymentStatusFailed : string;
  DeploymentStatusDescriptionRunning : string;
  DeploymentStatusDescriptionPaused : string;
  DeploymentStatusDescriptionFailedAllocations : string;
  EvalTriggerRollingUpdate : string;
  EvalStatusPending : string
}.

End structs.
Import structs.

(** Zero values of the response structs (Go's [var resp T]). *)
Definition zero_AllocListResponse : AllocListResponse :=
  {| ALR_Allocations := []; ALR_Index := 0 |}.
Definition zero_JobEvaluationsResponse : JobEvaluationsResponse :=
  {| JER_Evaluations := []; JER_Index := 0 |}.
Definition zero_JobVersionsResponse : JobVersionsResponse :=
  {| JVR_Versions := [] |}.

(** ** The watcher's interface to the rest of the system *)

(** An argument of [logger.Printf]. *)
Inductive fmt_arg : Type :=
| arg_string (s : string)
| arg_error (e : error).

(** The goroutines the watcher's methods start with [go]. *)
Inductive goroutine : Type :=
| go_batch.     (* the closure of createEvalBatched *)

(** Every call the watcher makes outside its own code: the embedded
    interfaces deploymentTriggers and DeploymentStateWatchers, the rate
    limiter, the logger, the UUID generator, and the runtime (mutex, sleep,
    go, the field outstandingBatch). *)
Inductive Call : Type :=
(* DeploymentStateWatchers; the response struct is passed by pointer *)
| Allocations (args : DeploymentSpecificRequest) (resp : AllocListResponse)
| Evaluations (args : JobSpecificRequest) (resp : JobEvaluationsResponse)
| GetJobVersions (args : JobSpecificRequest) (resp : JobVersionsResponse)
(* deploymentTriggers *)
| createEvaluation (eval : Evaluation)
| upsertDeploymentStatusUpdate (u : DeploymentStatusUpdate)
    (eval : option Evaluation) (job : option Job)
| upsertDeploymentAllocHealth (req : ApplyDeploymentAllocHealthRequest)
(* queryLimiter.Wait(w.ctx) *)
| queryLimiter_Wait
(* logger.Printf *)
| logger_Printf (format : string) (args : list fmt_arg)
(* structs.GenerateUUID *)
| GenerateUUID
(* runtime *)
| time_Sleep (d : Z)
| l_Lock
| l_Unlock
| load_outstandingBatch
| store_outstandingBatch (b : bool)
| go (g : goroutine).

(** What each call returns.  A Go result [(v, err)] is a pair whose second
    component is [None] for a nil error. *)
Definition Resp (c : Call) : Type :=
  match c with
  | Allocations _ _ => AllocListResponse * option error
  | Evaluations _ _ => JobEvaluationsResponse * option error
  | GetJobVersions _ _ => JobVersionsResponse * option error
  | createEvaluation _ => N * option error
  | upsertDeploymentStatusUpdate _ _ _ => N * option error
  | upsertDeploymentAllocHealth _ => N * option error
  | queryLimiter_Wait => option error
  | logger_Printf _ _ => unit
  | GenerateUUID => string
  | time_Sleep _ => unit
  | l_Lock => unit
  | l_Unlock => unit
  | load_outstandingBatch => bool
  | store_outstandingBatch _ => unit
  | go _ => unit
  end%type.

(** ** Programs: trees of calls *)

Inductive Prog (A : Type) : Type :=
| Ret (a : A)
| Panic (msg : string)              (* a Go run-time panic *)
| Spin                              (* a loop that has used up its fuel *)
| Do (c : Call) (k : Resp c -> Prog A).
Arguments Ret {A} a.
Arguments Panic {A} msg.
Arguments Spin {A}.
Arguments Do {A} c k.

Fixpoint bind {A B} (p : Prog A) (f : A -> Prog B) : Prog B :=
  match p with
  | Ret a => f a
  | Panic msg => Panic msg
  | Spin => Spin
  | Do c k => Do c (fun x => bind (k x) f)
  end.

Definition call (c : Call) : Prog (Resp c) := Do c Ret.

Declare Scope prog_scope.
Delimit Scope prog_scope with prog.
Bind Scope prog_scope with Prog.
Notation "'let*' x ':=' p 'in' q" := (bind p (fun x => q))
  (at level 10, x pattern, p at level 100, q at level 200) : prog_scope.
Notation "p ;; q" := (bind p (fun _ => q))
  (at level 100, q at level 200, right associativity) : prog_scope.
Local Open Scope prog_scope.

(** The nil-pointer dereference of Go. *)
Definition nil_dereference : string :=
  "invalid memory address or nil pointer dereference".

(** ** Running a program against an environment *)

(** One entry of a run's trace: a call and what it returned. *)
Inductive Event : Type :=
| Ev (c : Call) (r : Resp c).

Inductive Outcome (A : Type) : Type :=
| Done (a : A)
| Panicked (msg : string)
| Spinning.
Arguments Done {A} a.
Arguments Panicked {A} msg.
Arguments Spinning {A}.

Section Run.
Context {World : Type}.
(** The environment answers every call and moves to a new state. *)
Variable handle : forall c : Call, World -> Resp c * World.

Fixpoint run {A} (p : Prog A) (s : World) : Outcome A * World * list Event :=
  match p with
  | Ret a => (Done a, s, [])
  | Panic msg => (Panicked msg, s, [])
  | Spin => (Spinning, s, [])
  | Do c k =>
      let '(x, s1) := handle c s in
      let '(o, s2, t) := run (k x) s1 in
      (o, s2, Ev c x :: t)
  end.
End Run.

(** ** The watcher *)

Record deploymentWatcher := {
  d : Deployment;                   (* the deployment being watched *)
  j : Job;                          (* the job the deployment is for *)
  autorevert : gmap string bool     (* per task group *)
}.

(** [m[k]] on a Go [map[string]bool]: false for an absent key. *)
Definition map_index (m : gmap string bool) (k : string) : bool :=
  default false (m !! k).

Section Watcher.
Variable K : Constants.
Variable w : deploymentWatcher.

(** latestEvalIndex returns the index of the last evaluation created for
    the job. *)
Definition latestEvalIndex : Prog (N * option error) :=
  let* err := call queryLimiter_Wait in
  match err with
  | Some e => Ret (0, Some e)
  | None =>
      let args := {| JSR_JobID := Deployment_JobID (d w) |} in
      let* (resp, err) := call (Evaluations args zero_JobEvaluationsResponse) in
      match err with
      | Some e => Ret (0, Some e)
      | None =>
          match JER_Evaluations resp with
          | [] => Ret (JER_Index resp, None)
          | e :: _ =>
              if negb (Eval_SnapshotIndex e =? 0)
              then Ret (Eval_SnapshotIndex e, None)
              else Ret (Eval_CreateIndex e, None)
          end
      end
  end.

(** getAllocs retrieves the allocations that are part of the deployment
    blocking at the given index.  [fuel] bounds the rounds of its loop. *)
Fixpoint getAllocs_loop (fuel : nat) (index : N)
    (args : DeploymentSpecificRequest) (resp : AllocListResponse)
    : Prog (list AllocListStub * option error) :=
  if ALR_Index resp <=? index then
    match fuel with
    | O => Spin
    | S fuel' =>
        let* err := call queryLimiter_Wait in
        match err with
        | Some e => Ret ([], Some e)
        | None =>
            let* (resp', err) := call (Allocations args resp) in
            match err with
            | Some e => Ret ([], Some e)
            | None => getAllocs_loop fuel' index args resp'
            end
        end
    end
  else Ret (ALR_Allocations resp, None).

Definition getAllocs (fuel : nat) (index : N)
    : Prog (list AllocListStub * option error) :=
  let args := {| DSR_DeploymentID := Deployment_ID (d w);
                 DSR_MinQueryIndex := index |} in
  getAllocs_loop fuel index args zero_AllocListResponse.

(** getEval returns an evaluation suitable for the deployment. *)
Definition getEval : Prog Evaluation :=
  let* id := call GenerateUUID in
  Ret {| Eval_ID := id;
         Eval_Priority := Job_Priority (j w);
         Eval_Type := Job_Type (j w);
         Eval_TriggeredBy := EvalTriggerRollingUpdate K;
         Eval_JobID := Job_ID (j w);
         Eval_DeploymentID := Deployment_ID (d w);
         Eval_Status := EvalStatusPending K;
         Eval_SnapshotIndex := 0;
         Eval_CreateIndex := 0 |}.

(** getDeploymentStatusUpdate returns a deployment status update. *)
Definition getDeploymentStatusUpdate (status desc : string)
    : DeploymentStatusUpdate :=
  {| DSU_DeploymentID := Deployment_ID (d w);
     DSU_Status := status;
     DSU_StatusDescription := desc |}.

(** latestStableJob returns the latest stable job.  It may be nil if none
    exist. *)
Definition latestStableJob : Prog (option Job * option error) :=
  let args := {| JSR_JobID := Deployment_JobID (d w) |} in
  let* (resp, err) := call (GetJobVersions args zero_JobVersionsResponse) in
  match err with
  | Some e => Ret (None, Some e)
  | None => Ret (find Job_Stable (JVR_Versions resp), None)
  end.

(** createEval creates an evaluation for the job and commits it. *)
Definition createEval : Prog (string * N * option error) :=
  let* e := getEval in
  let* (evalCreateIndex, err) := call (createEvaluation e) in
  Ret (Eval_ID e, evalCreateIndex, err).

(** The closure that createEvalBatched starts with [go]. *)
Definition batch_closure : Prog unit :=
  call (time_Sleep evalBatchPeriod) ;;
  call l_Lock ;;
  call (store_outstandingBatch false) ;;
  call l_Unlock ;;
  let* (_, err) := createEval in
  match err with
  | Some e =>
      call (logger_Printf
              "[ERR] nomad.deployment_watcher: failed to create evaluation for deployment %q: %v"
              [arg_string (Deployment_ID (d w)); arg_error e])
  | None => Ret tt
  end.

(** createEvalBatched creates an eval but batches calls together.  The
    unlock is deferred, so it runs on both ways out. *)
Definition createEvalBatched : Prog unit :=
  call l_Lock ;;
  let* outstanding := call load_outstandingBatch in
  if (outstanding : bool) then call l_Unlock
  else call (go go_batch) ;; call l_Unlock.

(** The description of a failure that rolls the job back:
    [fmt.Sprintf("%s - rolling back to job version %d", desc, version)]. *)
Definition Sprintf_rollback (desc : string) (version : N) : string :=
  desc +:+ " - rolling back to job version "
       +:+ NilZero.string_of_uint (N.to_uint version).

(** *** SetAllocHealth *)

(** How the loop over the re-fetched allocations ends: the method returns
    an error, or the loop is left with a job and a description. *)
Inductive unhealthy_scan : Type :=
| scan_return (err : error)
| scan_done (j : option Job) (desc : string).

Fixpoint scan_unhealthy (unhealthy : gset string)
    (allocs : list AllocListStub) (desc : string) : Prog unhealthy_scan :=
  match allocs with
  | [] => Ret (scan_done None desc)
  | alloc :: rest =>
      (* Check that the alloc has been marked unhealthy *)
      if negb (bool_decide (Alloc_ID alloc ∈ unhealthy))
      then scan_unhealthy unhealthy rest desc
      (* Check if the group has autorevert set *)
      else if negb (map_index (autorevert w) (Alloc_TaskGroup alloc))
      then scan_unhealthy unhealthy rest desc
      else
        let* (j, err) := latestStableJob in
        match err with
        | Some e => Ret (scan_return e)
        | None =>
            match j with
            | None => Panic nil_dereference       (* j.Version *)
            | Some job =>
                Ret (scan_done j (Sprintf_rollback desc (Job_Version job)))
            end
        end
  end.

Definition SetAllocHealth (req : DeploymentAllocHealthRequest)
    (resp : DeploymentUpdateResponse)
    : Prog (DeploymentUpdateResponse * option error) :=
  let* r :=
    if negb (length (UnhealthyAllocationIDs req) =? 0)%nat then
      let unhealthy : gset string :=
        list_to_set (UnhealthyAllocationIDs req) in
      (* Get the allocations for the deployment *)
      let args := {| DSR_DeploymentID := DAH_DeploymentID req;
                     DSR_MinQueryIndex := 0 |} in
      let* (aresp, err) := call (Allocations args zero_AllocListResponse) in
      match err with
      | Some e => Ret (inl e)
      | None =>
          let desc := DeploymentStatusDescriptionFailedAllocations K in
          let* r := scan_unhealthy unhealthy (ALR_Allocations aresp) desc in
          match r with
          | scan_return e => Ret (inl e)
          | scan_done j desc =>
              Ret (inr (j, Some (getDeploymentStatusUpdate
                                   (DeploymentStatusFailed K) desc)))
          end
      end
    else Ret (inr (None, None)) in
  match r with
  | inl e => Ret (resp, Some e)
  | inr (j, u) =>
      (* Create the request *)
      let* eval := getEval in
      let areq := {| ADAH_Request := req;
                     ADAH_Eval := eval;
                     ADAH_DeploymentUpdate := u;
                     ADAH_Job := j |} in
      let* (index, err) := call (upsertDeploymentAllocHealth areq) in
      match err with
      | Some e => Ret (resp, Some e)
      | None =>
          (* Build the response *)
          Ret ({| EvalID := Eval_ID (ADAH_Eval areq);
                  EvalCreateIndex := index;
                  DeploymentModifyIndex := index |}, None)
      end
  end.

(** *** PauseDeployment *)

Definition PauseDeployment (req : DeploymentPauseRequest)
    (resp : DeploymentUpdateResponse)
    : Prog (DeploymentUpdateResponse * option error) :=
  let* (status, desc, eval, evalID) :=
    if negb (Pause req) then
      let* eval := getEval in
      Ret (DeploymentStatusRunning K, DeploymentStatusDescriptionRunning K,
           Some eval, Eval_ID eval)
    else
      Ret (DeploymentStatusPaused K, DeploymentStatusDescriptionPaused K,
           None, "") in
  let update := getDeploymentStatusUpdate status desc in
  (* Commit the change *)
  let* (i, err) := call (upsertDeploymentStatusUpdate update eval None) in
  match err with
  | Some e => Ret (resp, Some e)
  | None =>
      Ret ({| EvalID := evalID;
              EvalCreateIndex := i;
              DeploymentModifyIndex := i |}, None)
  end.

(** *** The watch loop *)

(** The three flags of a cycle's scan. *)
Record scan_flags := {
  createEval_flag : bool;
  failDeployment_flag : bool;
  rollback_flag : bool
}.

Definition no_flags : scan_flags :=
  {| createEval_flag := false;
     failDeployment_flag := false;
     rollback_flag := false |}.

(** The scan of the fetched allocations, with its [continue] and
    [break]. *)
Fixpoint scan_allocs (latestEval : N) (allocs : list AllocListStub)
    (fl : scan_flags) : scan_flags :=
  match allocs with
  | [] => fl
  | alloc :: rest =>
      match Alloc_DeploymentStatus alloc with
      | None => scan_allocs latestEval rest fl
      | Some ds =>
          if ModifyIndex ds <=? latestEval
          then scan_allocs latestEval rest fl
          else
            (* We need to create an eval *)
            let createEval := true in
            let rollback :=
              if IsUnhealthy ds
              then if map_index (autorevert w) (Alloc_TaskGroup alloc)
                   then true else rollback_flag fl
              else rollback_flag fl in
            let failDeployment :=
              if IsUnhealthy ds then true else failDeployment_flag fl in
            let fl' := {| createEval_flag := createEval;
                          failDeployment_flag := failDeployment;
                          rollback_flag := rollback |} in
            (* All conditions have been hit so we can break *)
            if createEval && failDeployment && rollback
            then fl'
            else scan_allocs latestEval rest fl'
      end
  end.

(** How a cycle of the loop ends: the method returns, or the next cycle
    starts with the new value of [latestEval].  The flags the scan
    computed in the cycle are kept for inspection. *)
Inductive cycle_end : Type :=
| cycle_return
| cycle_next (latestEval : N) (fl : scan_flags).

Definition log_if_error (format : string) (subject : string)
    (err : option error) : Prog unit :=
  match err with
  | Some e => call (logger_Printf format [arg_string subject; arg_error e])
  | None => Ret tt
  end.

(** The second half of a cycle, from "Change the deployments status to
    failed" on: what the loop does with the flags of its scan, given the
    value [latestEval] has at that point. *)
Definition cycle_reaction (latestEval : N) (fl : scan_flags)
    : Prog cycle_end :=
  if failDeployment_flag fl then
    (* Default description *)
    let desc := DeploymentStatusDescriptionFailedAllocations K in
    (* Rollback to the old job if necessary *)
    let* (j, desc) :=
      if rollback_flag fl then
        let* (j, err) := latestStableJob in
        log_if_error
          "[ERR] nomad.deployment_watcher: failed to lookup latest stable job for %q: %v"
          (Deployment_JobID (d w)) err ;;
        match j with
        | None => Panic nil_dereference       (* j.Version *)
        | Some job => Ret (j, Sprintf_rollback desc (Job_Version job))
        end
      else Ret (None, desc) in
    (* Update the status of the deployment to failed and create an
       evaluation. *)
    let* e := getEval in
    let u := getDeploymentStatusUpdate (DeploymentStatusFailed K) desc in
    let* (index, err) := call (upsertDeploymentStatusUpdate u (Some e) j) in
    match err with
    | Some _ =>
        log_if_error
          "[ERR] nomad.deployment_watcher: failed to update deployment %q status: %v"
          (Deployment_ID (d w)) err ;;
        Ret (cycle_next latestEval fl)
    | None => Ret (cycle_next index fl)
    end
  else if createEval_flag fl then
    (* Create an eval to push the deployment along *)
    createEvalBatched ;;
    Ret (cycle_next latestEval fl)
  else Ret (cycle_next latestEval fl).

(** One cycle of the body of [watch], entered with the current value of
    [latestEval]. *)
Definition watch_cycle (fuel : nat) (latestEval : N) : Prog cycle_end :=
  let* (allocs, err) := getAllocs fuel latestEval in
  match err with
  | Some context_Canceled => Ret cycle_return
  | _ =>
      log_if_error
        "[ERR] nomad.deployment_watcher: failed to retrieve allocations for deployment %q: %v"
        (Deployment_ID (d w)) err ;;
      (* Get the latest evaluation snapshot index *)
      let* (latestEval, err) := latestEvalIndex in
      match err with
      | Some context_Canceled => Ret cycle_return
      | _ =>
          log_if_error
            "[ERR] nomad.deployment_watcher: failed to determine last evaluation index for job %q: %v"
            (Deployment_JobID (d w)) err ;;
          (* Create an evaluation trigger if there is any allocation whose
             deployment status has been updated past the latest eval
             index. *)
          cycle_reaction latestEval (scan_allocs latestEval allocs no_flags)
      end
  end.

(** watch is the long running watcher that takes actions upon allocation
    changes; [cycles] bounds the number of cycles. *)
Fixpoint watch_from (cycles fuel : nat) (latestEval : N) : Prog unit :=
  match cycles with
  | O => Spin
  | S cycles' =>
      let* c := watch_cycle fuel latestEval in
      match c with
      | cycle_return => Ret tt
      | cycle_next latestEval' _ => watch_from cycles' fuel latestEval'
      end
  end.

Definition watch (cycles fuel : nat) : Prog unit :=
  watch_from cycles fuel 0.

End Watcher.

(** newDeploymentWatcher returns a deployment watcher; it derives the
    autorevert map from the job's task groups.  (It then starts [watch] in a
    goroutine of its own.) *)
Definition newDeploymentWatcher (d : Deployment) (j : Job) : deploymentWatcher :=
  {| d := d;
     j := j;
     autorevert :=
       foldl (fun m tg =>
                let autorevert :=
                  match TaskGroup_Update tg with
                  | Some u => AutoRevert u
                  | None => false
                  end in
                <[TaskGroup_Name tg := autorevert]> m)
             ∅ (Job_TaskGroups j) |}.

(** ** The watcher's goroutines on one machine

    The mutable field [outstandingBatch], the mutex [l], the clock and the
    goroutines started with [go] live in a machine state.  A goroutine runs
    from one [time.Sleep] to the next in one step: createEvalBatched holds
    the mutex for its whole body, and the closure touches the field only
    under the mutex, so a finer interleaving shows no other value of the
    field. *)
Module Machine.
Section Machine.
Context {World : Type}.
Variable ext : forall c : Call, World -> Resp c * World.
Variable K : Constants.
Variable w : deploymentWatcher.

Record state := {
  clock : Z;                             (* nanoseconds *)
  outstandingBatch : bool;
  mutex_held : bool;
  goroutines : list (Z * Prog unit);     (* ready time, rest of the body *)
  world : World;
  trace : list Event                     (* calls made so far, in order *)
}.

(** A fresh watcher: Go zeroes the field and the mutex. *)
Definition init (s : World) : state :=
  {| clock := 0; outstandingBatch := false; mutex_held := false;
     goroutines := []; world := s; trace := [] |}.

Definition body (g : goroutine) : Prog unit :=
  match g with
  | go_batch => batch_closure K w
  end.

Definition set_held (b : bool) (m : state) : state :=
  {| clock := clock m; outstandingBatch := outstandingBatch m;
     mutex_held := b; goroutines := goroutines m; world := world m;
     trace := trace m |}.

Definition set_outstandingBatch (b : bool) (m : state) : state :=
  {| clock := clock m; outstandingBatch := b;
     mutex_held := mutex_held m; goroutines := goroutines m;
     world := world m; trace := trace m |}.

Definition set_goroutines (gs : list (Z * Prog unit)) (m : state) : state :=
  {| clock := clock m; outstandingBatch := outstandingBatch m;
     mutex_held := mutex_held m; goroutines := gs; world := world m;
     trace := trace m |}.

Definition set_world (s : World) (m : state) : state :=
  {| clock := clock m; outstandingBatch := outstandingBatch m;
     mutex_held := mutex_held m; goroutines := goroutines m; world := s;
     trace := trace m |}.

Definition set_clock (t : Z) (m : state) : state :=
  {| clock := t; outstandingBatch := outstandingBatch m;
     mutex_held := mutex_held m; goroutines := goroutines m;
     world := world m; trace := trace m |}.

Definition record (e : Event) (m : state) : state :=
  {| clock := clock m; outstandingBatch := outstandingBatch m;
     mutex_held := mutex_held m; goroutines := goroutines m;
     world := world m; trace := trace m ++ [e] |}.

(** The runtime answers its own calls; the others go to the environment. *)
Definition answer (c : Call) (m : state) : Resp c * state :=
  match c as c0 return Resp c0 * state with
  | l_Lock => (tt, set_held true m)
  | l_Unlock => (tt, set_held false m)
  | load_outstandingBatch => (outstandingBatch m, m)
  | store_outstandingBatch b => (tt, set_outstandingBatch b m)
  | go g =>
      (tt, set_goroutines (goroutines m ++ [(clock m, body g)]) m)
  | time_Sleep _ => (tt, m)
  | c0 => let '(r, s) := ext c0 (world m) in (r, set_world s m)
  end.

Definition handle (c : Call) (m : state) : Resp c * state :=
  let '(r, m1) := answer c m in (r, record (Ev c r) m1).

Definition sleep_of (c : Call) : option Z :=
  match c with
  | time_Sleep dur => Some dur
  | _ => None
  end.

(** Run a goroutine until it ends or goes to sleep. *)
Fixpoint run_goroutine (p : Prog unit) (m : state) : state :=
  match p with
  | Ret _ | Panic _ | Spin => m
  | Do c k =>
      let '(r, m1) := handle c m in
      match sleep_of c with
      | Some dur =>
          set_goroutines (goroutines m1 ++ [((clock m1 + dur)%Z, k r)]) m1
      | None => run_goroutine (k r) m1
      end
  end.

(** The watch loop asks for a batched evaluation. *)
Definition trigger (m : state) : state :=
  run_goroutine (createEvalBatched) m.

(** Time passes. *)
Definition tick (dt : Z) (m : state) : state :=
  set_clock (clock m + dt)%Z m.

(** The scheduler resumes the goroutine at position [i] if it is ready. *)
Definition resume (i : nat) (m : state) : state :=
  match goroutines m !! i with
  | Some (ready, p) =>
      if (ready <=? clock m)%Z
      then run_goroutine p (set_goroutines (delete i (goroutines m)) m)
      else m
  | None => m
  end.

Inductive step : state -> state -> Prop :=
| step_trigger m : step m (trigger m)
| step_tick m dt : (0 <= dt)%Z -> step m (tick dt m)
| step_resume m i : step m (resume i m).

(** What can happen next on the machine. *)
Inductive action : Type :=
| Trigger                 (* the watch loop calls createEvalBatched *)
| Tick (dt : Z)           (* time passes *)
| Resume (i : nat).       (* the scheduler picks goroutine [i] *)

Definition perform (a : action) (m : state) : state :=
  match a with
  | Trigger => trigger m
  | Tick dt => tick dt m
  | Resume i => resume i m
  end.

Definition performs (l : list action) (m : state) : state :=
  foldl (fun m a => perform a m) m l.

(** Time does not run backwards. *)
Definition allowed (a : action) : bool :=
  match a with
  | Tick dt => (0 <=? dt)%Z
  | _ => true
  end.

(** A program that never stores [true] in [outstandingBatch]. *)
Inductive never_marks {A : Type} : Prog A -> Prop :=
| never_marks_Ret a : never_marks (Ret a)
| never_marks_Panic msg : never_marks (Panic msg)
| never_marks_Spin : never_marks Spin
| never_marks_Do c k :
    c ≠ store_outstandingBatch true ->
    (∀ r, never_marks (k r)) ->
    never_marks (Do c k).

(** A machine on which no batch is marked outstanding and no goroutine
    will mark one. *)
Definition unmarked (m : state) : Prop :=
  outstandingBatch m = false ∧
  Forall (fun g => never_marks g.2) (goroutines m).

(** The evaluation-creation writes recorded in a trace. *)
Definition eval_writes (t : list Event) : list Evaluation :=
  omap (fun e => match e with
                 | Ev (createEvaluation eval) _ => Some eval
                 | _ => None
                 end) t.

End Machine.
End Machine.

(** ** The command line (main.go) *)
Module Main.

(** [copy(dst, src)]: the first [min(len(dst), len(src))] elements of [dst]
    are overwritten with those of [src]. *)
Definition copy (dst src : list string) : list string :=
  take (length dst) src ++ drop (length src) dst.

Definition is_version_flag (arg : string) : bool :=
  bool_decide (arg = "-v") || bool_decide (arg = "-version")
  || bool_decide (arg = "--version").

(** The first loop of RunCustom: at the first version flag the arguments
    are rebuilt with [make], an assignment to index 0 and a [copy] into the
    slice [newArgs[1:]], and the loop is left. *)
Fixpoint shortcut_version (rest args : list string) : list string :=
  match rest with
  | [] => args
  | arg :: rest' =>
      if is_version_flag arg then
        let newArgs := replicate (length args + 1) "" in
        let newArgs := <[0%nat := "version"]> newArgs in
        take 1 newArgs ++ copy (drop 1 newArgs) args
      else shortcut_version rest' args
  end.

(** The commands that RunCustom leaves out of the help. *)
Definition hidden : list string :=
  [ "check";
    "deployment list"; "deployment status"; "deployment pause";
    "deployment resume"; "deployment fail"; "deployment promote";
    "executor";
    "fs ls"; "fs cat"; "fs stat";
    "job dispatch"; "job history"; "job revert";
    "operator raft"; "operator raft list-peers"; "operator raft remove-peer";
    "syslog" ].

(** The second loop of RunCustom, over the keys of the command map in the
    order the iteration yields them. *)
Fixpoint include_commands (keys commandsInclude : list string) : list string :=
  match keys with
  | [] => commandsInclude
  | k :: keys' =>
      if bool_decide (k ∈ hidden)
      then include_commands keys' commandsInclude
      else include_commands keys' (commandsInclude ++ [k])
  end.

(** The line feed that ends the message on standard error. *)
Definition newline : string := String (Ascii.ascii_of_nat 10) EmptyString.

Section RunCustom.
(** The command factories and the library that runs the CLI are outside
    this repository's sources. *)
Context {CommandFactory : Type}.

Record CLI := {
  CLI_Args : list string;
  CLI_Commands : gmap string CommandFactory;
  CLI_HelpName : string;              (* cli.BasicHelpFunc("nomad") *)
  CLI_HelpInclude : list string       (* cli.FilteredHelpFunc(commandsInclude, _) *)
}.

Variable cli_Run : CLI -> Z * option string.   (* exit code, err.Error() *)
Variable range : gmap string CommandFactory -> list string.

(** RunCustom returns the exit code together with what it wrote to
    standard error. *)
Definition RunCustom (args : list string)
    (commands : gmap string CommandFactory) : Z * option string :=
  let args := shortcut_version args args in
  let commandsInclude := include_commands (range commands) [] in
  let cli := {| CLI_Args := args;
                CLI_Commands := commands;
                CLI_HelpName := "nomad";
                CLI_HelpInclude := commandsInclude |} in
  let '(exitCode, err) := cli_Run cli in
  match err with
  | Some e => (1%Z, Some ("Error executing CLI: " +:+ e +:+ newline))
  | None => (exitCode, None)
  end.
End RunCustom.

End Main.

(** ** A scripted environment

    An environment that answers each kind of call from a list prepared in
    advance, used to run the watcher on concrete inputs.  A list that has run
    out answers with zero values and no error. *)
Module Scripted.

Record script := {
  waits : list (option error);
  allocations : list (AllocListResponse * option error);
  evaluations : list (JobEvaluationsResponse * option error);
  versions : list (JobVersionsResponse * option error);
  writes : list (N * option error);
  uuids : list string
}.

Definition pop {A} (dflt : A) (l : list A) : A * list A :=
  match l with
  | [] => (dflt, [])
  | x :: l' => (x, l')
  end.

Definition next_write (s : script) : (N * option error) * script :=
  let '(r, l) := pop (0, None) (writes s) in
  (r, {| waits := waits s; allocations := allocations s;
         evaluations := evaluations s; versions := versions s;
         writes := l; uuids := uuids s |}).

Definition handle (c : Call) (s : script) : Resp c * script :=
  match c as c0 return Resp c0 * script with
  | Allocations _ resp =>
      let '(r, l) := pop (resp, None) (allocations s) in
      (r, {| waits := waits s; allocations := l;
             evaluations := evaluations s; versions := versions s;
             writes := writes s; uuids := uuids s |})
  | Evaluations _ resp =>
      let '(r, l) := pop (resp, None) (evaluations s) in
      (r, {| waits := waits s; allocations := allocations s;
             evaluations := l; versions := versions s;
             writes := writes s; uuids := uuids s |})
  | GetJobVersions _ resp =>
      let '(r, l) := pop (resp, None) (versions s) in
      (r, {| waits := waits s; allocations := allocations s;
             evaluations := evaluations s; versions := l;
             writes := writes s; uuids := uuids s |})
  | createEvaluation _ => next_write s
  | upsertDeploymentStatusUpdate _ _ _ => next_write s
  | upsertDeploymentAllocHealth _ => next_write s
  | queryLimiter_Wait =>
      let '(r, l) := pop None (waits s) in
      (r, {| waits := l; allocations := allocations s;
             evaluations := evaluations s; versions := versions s;
             writes := writes s; uuids := uuids s |})
  | logger_Printf _ _ => (tt, s)
  | GenerateUUID =>
      let '(r, l) := pop "" (uuids s) in
      (r, {| waits := waits s; allocations := allocations s;
             evaluations := evaluations s; versions := versions s;
             writes := writes s; uuids := l |})
  | time_Sleep _ => (tt, s)
  | l_Lock => (tt, s)
  | l_Unlock => (tt, s)
  | load_outstandingBatch => (false, s)
  | store_outstandingBatch _ => (tt, s)
  | go _ => (tt, s)
  end.

Definition empty : script :=
  {| waits := []; allocations := []; evaluations := []; versions := [];
     writes := []; uuids := [] |}.

(** A script of answers to the reads only. *)
Definition reads (ws : list (option error))
    (als : list (AllocListResponse * option error))
    (evs : list (JobEvaluationsResponse * option error))
    (vs : list (JobVersionsResponse * option error)) : script :=
  {| waits := ws; allocations := als; evaluations := evs; versions := vs;
     writes := []; uuids := [] |}.

(** The same script, with answers to the writes and UUIDs to hand out. *)
Definition with_writes (s : script) (wr : list (N * option error))
    (ids : list string) : script :=
  {| waits := waits s; allocations := allocations s;
     evaluations := evaluations s; versions := versions s;
     writes := wr; uuids := ids |}.

(** Sample data: a job with an autoreverting group [web] and a group
    [cache] without an update policy. *)
Definition consts : Constants :=
  {| DeploymentStatusRunning := "running";
     DeploymentStatusPaused := "paused";
     DeploymentStatusFailed := "failed";
     DeploymentStatusDescriptionRunning := "Deployment is running";
     DeploymentStatusDescriptionPaused := "Deployment is paused";
     DeploymentStatusDescriptionFailedAllocations :=
       "Failed due to unhealthy allocations";
     EvalTriggerRollingUpdate := "rolling-update";
     EvalStatusPending := "pending" |}.

Definition job (version : N) (stable : bool) : Job :=
  {| Job_ID := "example"; Job_Priority := 50; Job_Type := "service";
     Job_Version := version; Job_Stable := stable;
     Job_TaskGroups :=
       [ {| TaskGroup_Name := "web";
            TaskGroup_Update := Some {| AutoRevert := true |} |};
         {| TaskGroup_Name := "cache"; TaskGroup_Update := None |} ] |}.

Definition deployment : Deployment :=
  {| Deployment_ID := "d1"; Deployment_JobID := "example" |}.

Definition watcher : deploymentWatcher :=
  newDeploymentWatcher deployment (job 3 false).

Definition alloc (id tg : string) (healthy : option bool) (index : N)
    : AllocListStub :=
  {| Alloc_ID := id; Alloc_TaskGroup := tg;
     Alloc_DeploymentStatus :=
       Some {| Healthy := healthy; ModifyIndex := index |} |}.

Definition eval (snapshot create : N) : Evaluation :=
  {| Eval_ID := "e0"; Eval_Priority := 50; Eval_Type := "service";
     Eval_TriggeredBy := "rolling-update"; Eval_JobID := "example";
     Eval_DeploymentID := "d1"; Eval_Status := "complete";
     Eval_SnapshotIndex := snapshot; Eval_CreateIndex := create |}.

Definition no_response : DeploymentUpdateResponse :=
  {| EvalID := ""; EvalCreateIndex := 0; DeploymentModifyIndex := 0 |}.

(** Sample inputs of SetAllocHealth: the allocations of the deployment as
    re-fetched, and requests reporting some of them unhealthy. *)
Definition three_allocs : AllocListResponse :=
  {| ALR_Allocations :=
       [ alloc "a1" "cache" (Some false) 10;
         alloc "a2" "web" (Some false) 11;
         alloc "a3" "web" (Some false) 12 ];
     ALR_Index := 12 |}.

Definition report (unhealthy : list string) : DeploymentAllocHealthRequest :=
  {| DAH_DeploymentID := "d1"; HealthyAllocationIDs := [];
     UnhealthyAllocationIDs := unhealthy |}.

Definition health_args : DeploymentSpecificRequest :=
  {| DSR_DeploymentID := "d1"; DSR_MinQueryIndex := 0 |}.

(** The store answers the re-fetch with [three_allocs], a lookup of the
    job's versions with [vs], the write with index 20. *)
Definition health_script (vs : list Job) : script :=
  with_writes
    (reads [] [(three_allocs, None)] [] [({| JVR_Versions := vs |}, None)])
    [(20, None)] ["u1"].

Definition after_refetch (vs : list Job) : script :=
  with_writes (reads [] [] [] [({| JVR_Versions := vs |}, None)])
    [(20, None)] ["u1"].

(** A script for one cycle of the watch loop: the allocations and their
    index, the job's evaluations and the store's index, the answers to
    lookups of the job's versions; a write returns index 30. *)
Definition cycle_script (allocs : list AllocListStub) (index : N)
    (evals : list Evaluation) (eval_index : N)
    (vs : list (JobVersionsResponse * option error)) : script :=
  with_writes
    (reads []
       [({| ALR_Allocations := allocs; ALR_Index := index |}, None)]
       [({| JER_Evaluations := evals; JER_Index := eval_index |}, None)]
       vs)
    [(30, None)] ["u1"].

(** Two requests for a batched evaluation, 0.4 s apart, on a fresh watcher;
    each started closure is scheduled once, and once more after a further
    second. *)
Definition two_triggers : list Machine.action :=
  [ Machine.Trigger; Machine.Resume 0;
    Machine.Tick 400000000;
    Machine.Trigger; Machine.Resume 1 ].

Definition window_over : list Machine.action :=
  [ Machine.Tick 1000000000; Machine.Resume 0; Machine.Resume 0 ].

Definition fresh_watcher : Machine.state :=
  Machine.init (with_writes empty [(40, None); (41, None)] ["u1"; "u2"]).

(** Three cycles of the watch loop: an unhealthy allocation of [cache]
    makes the first cycle write the failure, which returns index 30; the
    job's most recent evaluation keeps snapshot index 8; the third
    allocation query is cancelled. *)
Definition three_cycles : script :=
  with_writes
    (reads []
       [ ({| ALR_Allocations := [alloc "a1" "cache" (Some false) 10];
             ALR_Index := 11 |}, None);
         ({| ALR_Allocations := []; ALR_Index := 31 |}, None);
         (zero_AllocListResponse, Some context_Canceled) ]
       [ ({| JER_Evaluations := [eval 8 6]; JER_Index := 9 |}, None);
         ({| JER_Evaluations := [eval 8 6]; JER_Index := 31 |}, None) ]
       [])
    [(30, None)] ["u1"].

(** A job whose task groups all carry different names. *)
Definition three_groups : Job :=
  {| Job_ID := "example"; Job_Priority := 50; Job_Type := "service";
     Job_Version := 4; Job_Stable := false;
     Job_TaskGroups :=
       [ {| TaskGroup_Name := "web";
            TaskGroup_Update := Some {| AutoRevert := true |} |};
         {| TaskGroup_Name := "cache"; TaskGroup_Update := None |};
         {| TaskGroup_Name := "db";
            TaskGroup_Update := Some {| AutoRevert := false |} |} ] |}.

(** The watcher is stopped while the loop waits on the limiter. *)
Definition cancelled_at_wait : script :=
  reads [Some context_Canceled] [] [] [].

(** The allocation query fails for another reason, and the watcher is
    stopped during the query of the evaluations. *)
Definition cancelled_at_evaluations : script :=
  reads []
    [(zero_AllocListResponse, Some (errors_New "no leader"))]
    [(zero_JobEvaluationsResponse, Some context_Canceled)] [].

(** A command map with one hidden and two visible commands, iterated in
    the order of its list of entries. *)
Definition commands : gmap string unit :=
  <["check" := tt]> (<["run" := tt]> (<["version" := tt]> ∅)).

Definition range_of (m : gmap string unit) : list string :=
  (map_to_list m).*1.

End Scripted.

(** ** Vocabulary of the statements *)

(** What the spec says latestEvalIndex returns on a successful read: the
    most recent evaluation's snapshot index when non-zero; otherwise its
    create index; otherwise (no evaluations) the store's current index. *)
Definition spec_latestEvalIndex (resp : JobEvaluationsResponse) : N :=
  match JER_Evaluations resp with
  | [] => JER_Index resp
  | e :: _ =>
      if decide (Eval_SnapshotIndex e ≠ 0)
      then Eval_SnapshotIndex e
      else Eval_CreateIndex e
  end.

(** [rounds index args r t r']: the trace [t] consists of rounds of the loop
    of getAllocs, each entered while the response at hand is not past
    [index] and made of a limiter wait and a query that both succeed; the
    rounds lead from the response [r] to the response [r']. *)
Inductive rounds (index : N) (args : DeploymentSpecificRequest)
    : AllocListResponse -> list Event -> AllocListResponse -> Prop :=
| rounds_nil r : rounds index args r [] r
| rounds_cons r r1 r' t :
    ALR_Index r <= index ->
    rounds index args r1 t r' ->
    rounds index args r
      (Ev queryLimiter_Wait None :: Ev (Allocations args r) (r1, None) :: t)
      r'.

(** What a run of the loop of getAllocs looks like, whatever the
    environment answers. *)
Definition getAllocs_post {World : Type} (index : N)
    (args : DeploymentSpecificRequest) (fuel : nat) (r : AllocListResponse)
    (res : Outcome (list AllocListStub * option error) * World * list Event)
    : Prop :=
  match res with
  | (Done (allocs, None), _, t) =>
      ∃ r', rounds index args r t r' ∧ index < ALR_Index r' ∧
            allocs = ALR_Allocations r'
  | (Done (allocs, Some e), _, t) =>
      allocs = [] ∧
      ∃ t0 r', rounds index args r t0 r' ∧ ALR_Index r' <= index ∧
        (t = t0 ++ [Ev queryLimiter_Wait (Some e)] ∨
         ∃ r'', t = t0 ++ [Ev queryLimiter_Wait None;
                           Ev (Allocations args r') (r'', Some e)])
  | (Panicked _, _, _) => False
  | (Spinning, _, t) =>
      ∃ r', rounds index args r t r' ∧ ALR_Index r' <= index ∧
            length t = (2 * fuel)%nat
  end.

(** A fresh allocation for a watermark: its deployment status is set and
    its modify index exceeds the watermark. *)
Definition fresh (watermark : N) (alloc : AllocListStub) : bool :=
  match Alloc_DeploymentStatus alloc with
  | Some ds => watermark <? ModifyIndex ds
  | None => false
  end.

Definition unhealthy_alloc (alloc : AllocListStub) : bool :=
  match Alloc_DeploymentStatus alloc with
  | Some ds => IsUnhealthy ds
  | None => false
  end.

(** What the spec says the scan of a cycle computes for a watermark: an
    evaluation is needed when some allocation is fresh; the deployment
    should fail when a fresh one is unhealthy; a rollback is needed when the
    task group of a fresh unhealthy one has autorevert enabled. *)
Definition spec_scan (w : deploymentWatcher) (watermark : N)
    (allocs : list AllocListStub) : scan_flags :=
  {| createEval_flag := existsb (fresh watermark) allocs;
     failDeployment_flag :=
       existsb (fun a => fresh watermark a && unhealthy_alloc a) allocs;
     rollback_flag :=
       existsb (fun a => fresh watermark a && unhealthy_alloc a
                         && map_index (autorevert w) (Alloc_TaskGroup a))
               allocs |}.

(** The status-update writes of a trace, each with what it returned. *)
Definition status_writes (t : list Event)
    : list (DeploymentStatusUpdate * option Evaluation * option Job
            * (N * option error)) :=
  omap (fun e =>
          match e with
          | Ev c r =>
              match c as c0
                return Resp c0 ->
                       option (DeploymentStatusUpdate * option Evaluation
                               * option Job * (N * option error)) with
              | upsertDeploymentStatusUpdate u eval job =>
                  fun r => Some (u, eval, job, r)
              | _ => fun _ => None
              end r
          end) t.

(** The allocation-health writes of a trace. *)
Definition health_writes (t : list Event)
    : list ApplyDeploymentAllocHealthRequest :=
  omap (fun e => match e with
                 | Ev (upsertDeploymentAllocHealth areq) _ => Some areq
                 | _ => None
                 end) t.

(** The lookups of the job's versions in a trace. *)
Definition version_lookups (t : list Event) : list JobSpecificRequest :=
  omap (fun e => match e with
                 | Ev (GetJobVersions args _) _ => Some args
                 | _ => None
                 end) t.

(** An allocation that SetAllocHealth rolls back for: reported unhealthy
    in the request, in a task group with autorevert. *)
Definition eligible (w : deploymentWatcher) (unhealthy : gset string)
    (alloc : AllocListStub) : bool :=
  bool_decide (Alloc_ID alloc ∈ unhealthy)
  && map_index (autorevert w) (Alloc_TaskGroup alloc).

(** The response an RPC-style operation builds from the result of its
    write. *)
Definition response_of (resp : DeploymentUpdateResponse) (evalID : string)
    (r : N * option error) : DeploymentUpdateResponse * option error :=
  match r with
  | (index, None) =>
      ({| EvalID := evalID; EvalCreateIndex := index;
          DeploymentModifyIndex := index |}, None)
  | (_, Some e) => (resp, Some e)
  end.

(** The evaluation getEval builds around a generated id. *)
Definition evaluation_of (K : Constants) (w : deploymentWatcher)
    (id : string) : Evaluation :=
  {| Eval_ID := id;
     Eval_Priority := Job_Priority (j w);
     Eval_Type := Job_Type (j w);
     Eval_TriggeredBy := EvalTriggerRollingUpdate K;
     Eval_JobID := Job_ID (j w);
     Eval_DeploymentID := Deployment_ID (d w);
     Eval_Status := EvalStatusPending K;
     Eval_SnapshotIndex := 0;
     Eval_CreateIndex := 0 |}.

(** A run that continues a trace already made. *)
Definition after {World A : Type} (t0 : list Event)
    (res : Outcome A * World * list Event) : Outcome A * World * list Event :=
  (res.1.1, res.1.2, t0 ++ res.2).

(** The last two calls of SetAllocHealth: a fresh evaluation and the
    allocation-health write that carries it with the status update [u] and
    the job [j]. *)
Definition health_commit {World : Type}
    (handle : forall c : Call, World -> Resp c * World)
    (K : Constants) (w : deploymentWatcher)
    (req : DeploymentAllocHealthRequest) (resp : DeploymentUpdateResponse)
    (j : option Job) (u : option DeploymentStatusUpdate) (s : World)
    : Outcome (DeploymentUpdateResponse * option error) * World * list Event :=
  let '(id, s1) := handle GenerateUUID s in
  let areq := {| ADAH_Request := req;
                 ADAH_Eval := evaluation_of K w id;
                 ADAH_DeploymentUpdate := u;
                 ADAH_Job := j |} in
  let '(r, s2) := handle (upsertDeploymentAllocHealth areq) s1 in
  (Done (response_of resp id r), s2,
   [Ev GenerateUUID id; Ev (upsertDeploymentAllocHealth areq) r]).

(** The status update that marks the watcher's deployment failed. *)
Definition failed_update (K : Constants) (w : deploymentWatcher)
    (desc : string) : DeploymentStatusUpdate :=
  {| DSU_DeploymentID := Deployment_ID (d w);
     DSU_Status := DeploymentStatusFailed K;
     DSU_StatusDescription := desc |}.

(** The value a cycle leaves in [latestEval], read off the trace of its
    second half: the index returned by the status-update write when one was
    made and succeeded, and otherwise the value [v] that the read of the
    latest evaluation index returned. *)
Definition watermark_after (v : N) (t : list Event) : N :=
  match status_writes t with
  | [(_, (index, None))] => index
  | _ => v
  end.

(** How the second half of a cycle can end, given the value [v] of
    [latestEval] and the flags [fl] it starts from. *)
Definition reaction_post {World : Type} (v : N) (fl : scan_flags)
    (res : Outcome cycle_end * World * list Event) : Prop :=
  match res with
  | (Done (cycle_next latestEval fl'), _, t) =>
      fl' = fl ∧ latestEval = watermark_after v t ∧
      (status_writes t = [] ↔ failDeployment_flag fl = false)
  | (Done cycle_return, _, _) => False
  | (Panicked msg, _, t) =>
      msg = nil_dereference ∧ failDeployment_flag fl = true ∧
      rollback_flag fl = true ∧ status_writes t = []
  | (Spinning, _, _) => False
  end.

(** The minimum indexes of the allocation queries of a trace, in order. *)
Definition allocation_queries (t : list Event) : list N :=
  omap (fun e => match e with
                 | Ev (Allocations args _) _ => Some (DSR_MinQueryIndex args)
                 | _ => None
                 end) t.

(** The policy newDeploymentWatcher records for a task group. *)
Definition group_autorevert (tg : TaskGroup) : bool :=
  match TaskGroup_Update tg with
  | Some u => AutoRevert u
  | None => false
  end.

(** The limiter waits of a trace, each with what it returned. *)
Definition limiter_waits (t : list Event) : list (option error) :=
  omap (fun e =>
          match e with
          | Ev c r =>
              match c as c0 return Resp c0 -> option (option error) with
              | queryLimiter_Wait => fun r => Some r
              | _ => fun _ => None
              end r
          end) t.

(** The goroutines started in a trace. *)
Definition go_events (t : list Event) : list goroutine :=
  omap (fun e => match e with
                 | Ev (go g) _ => Some g
                 | _ => None
                 end) t.

(** The lines logged in a trace. *)
Definition log_lines (t : list Event) : list (string * list fmt_arg) :=
  omap (fun e => match e with
                 | Ev (logger_Printf format args) _ => Some (format, args)
                 | _ => None
                 end) t.

Definition is_canceled (err : option error) : bool :=
  match err with
  | Some context_Canceled => true
  | _ => false
  end.

(** A limiter wait or a blocking query that reported [context.Canceled]. *)
Definition reports_cancel (e : Event) : bool :=
  match e with
  | Ev c r =>
      match c as c0 return Resp c0 -> bool with
      | queryLimiter_Wait => fun r => is_canceled r
      | Allocations _ _ => fun r => is_canceled r.2
      | Evaluations _ _ => fun r => is_canceled r.2
      | _ => fun _ => false
      end r
  end.

(** A trace without a write and without a goroutine started. *)
Definition no_effects (t : list Event) : Prop :=
  status_writes t = [] ∧ health_writes t = [] ∧
  Machine.eval_writes t = [] ∧ go_events t = [].

(** The last calls of a cycle that fails the deployment: a fresh
    evaluation and the status-update write to failed that carries it with
    the job [j]; a failed write is logged and leaves [v] in [latestEval]. *)
Definition status_commit {World : Type}
    (handle : forall c : Call, World -> Resp c * World)
    (K : Constants) (w : deploymentWatcher) (v : N) (fl : scan_flags)
    (desc : string) (j : option Job) (s : World)
    : Outcome cycle_end * World * list Event :=
  let '(id, s1) := handle GenerateUUID s in
  let write :=
    upsertDeploymentStatusUpdate (failed_update K w desc)
      (Some (evaluation_of K w id)) j in
  let '(r, s2) := handle write s1 in
  match r.2 with
  | None => (Done (cycle_next r.1 fl), s2, [Ev GenerateUUID id; Ev write r])
  | Some e =>
      let log :=
        logger_Printf
          "[ERR] nomad.deployment_watcher: failed to update deployment %q status: %v"
          [arg_string (Deployment_ID (d w)); arg_error e] in
      let '(u, s3) := handle log s2 in
      (Done (cycle_next v fl), s3,
       [Ev GenerateUUID id; Ev write r; Ev log u])
  end.

(** The effects a cycle of the watch loop may have: no allocation-health
    write and no evaluation-creation write, at most one goroutine started,
    and at most one status-update write, which sets the watcher's
    deployment to failed and carries an evaluation built by getEval; a
    cycle that starts a goroutine makes no status-update write. *)
Definition cycle_effects (K : Constants) (w : deploymentWatcher)
    (t : list Event) : Prop :=
  health_writes t = [] ∧ Machine.eval_writes t = [] ∧
  (length (go_events t) <= 1)%nat ∧
  (status_writes t = [] ∨
   go_events t = [] ∧
   ∃ desc id job r,
     status_writes t =
       [(failed_update K w desc, Some (evaluation_of K w id), job, r)]).

(** The closure of createEvalBatched once its sleep is over. *)
Definition batch_rest (K : Constants) (w : deploymentWatcher) : Prog unit :=
  call l_Lock ;;
  call (store_outstandingBatch false) ;;
  call l_Unlock ;;
  let* (_, err) := createEval K w in
  match err with
  | Some e =>
      call (logger_Printf
              "[ERR] nomad.deployment_watcher: failed to create evaluation for deployment %q: %v"
              [arg_string (Deployment_ID (d w)); arg_error e])
  | None => Ret tt
  end.

(** A machine on which the mutex is free, every goroutine is a closure of
    createEvalBatched, asleep or about to sleep, and every closure started
    so far is either one of those or has made its evaluation-creation
    write. *)
Definition batches_accounted {World : Type} (K : Constants)
    (w : deploymentWatcher) (m : @Machine.state World) : Prop :=
  Machine.mutex_held m = false ∧
  Forall (fun g => g.2 = batch_closure K w ∨ g.2 = batch_rest K w)
    (Machine.goroutines m) ∧
  length (go_events (Machine.trace m))
  = (length (Machine.goroutines m)
     + length (Machine.eval_writes (Machine.trace m)))%nat.

(** ** Running programs: general facts *)

Section RunFacts.
Context {World : Type}.
Variable handle : forall c : Call, World -> Resp c * World.

Lemma run_bind {A B} (p : Prog A) (f : A -> Prog B) (s : World) :
  run handle (bind p f) s =
  match run handle p s with
  | (Done a, s1, t1) =>
      let '(o, s2, t2) := run handle (f a) s1 in (o, s2, t1 ++ t2)
  | (Panicked msg, s1, t1) => (Panicked msg, s1, t1)
  | (Spinning, s1, t1) => (Spinning, s1, t1)
  end.
Proof.
  revert s. induction p as [a|msg| |c k IH]; intros s; simpl; try done.
  - by destruct (run handle (f a) s) as [[o s2] t2].
  - destruct (handle c s) as [x s1]. rewrite IH.
    destruct (run handle (k x) s1) as [[[a|msg|] s2] t1]; simpl; try done.
    by destruct (run handle (f a) s2) as [[o s3] t2].
Qed.

Lemma run_call (c : Call) (s : World) :
  run handle (call c) s =
  (Done (handle c s).1, (handle c s).2, [Ev c (handle c s).1]).
Proof. unfold call. simpl. by destruct (handle c s). Qed.

Lemma getAllocs_loop_0 index args r :
  getAllocs_loop 0 index args r =
  if ALR_Index r <=? index then Spin else Ret (ALR_Allocations r, None).
Proof. done. Qed.

Lemma getAllocs_loop_S fuel index args r :
  getAllocs_loop (S fuel) index args r =
  if ALR_Index r <=? index then
    (let* err := call queryLimiter_Wait in
     match err with
     | Some e => Ret ([], Some e)
     | None =>
         let* (resp', err) := call (Allocations args r) in
         match err with
         | Some e => Ret ([], Some e)
         | None => getAllocs_loop fuel index args resp'
         end
     end)%prog
  else Ret (ALR_Allocations r, None).
Proof. done. Qed.

Lemma getAllocs_loop_post index args fuel :
  ∀ r s, getAllocs_post index args fuel r
           (run handle (getAllocs_loop fuel index args r) s).
Proof.
  induction fuel as [|fuel IH]; intros r s.
  - rewrite getAllocs_loop_0.
    destruct (N.leb_spec (ALR_Index r) index) as [Hle|Hlt]; simpl.
    + exists r. split; [constructor|done].
    + exists r. split; [constructor|done].
  - rewrite getAllocs_loop_S.
    destruct (N.leb_spec (ALR_Index r) index) as [Hle|Hlt]; simpl.
    2:{ exists r. split; [constructor|done]. }
    destruct (handle queryLimiter_Wait s) as [[e|] s1]; simpl.
    { split; [done|]. exists [], r. split; [constructor|]. split; [done|].
      by left. }
    destruct (handle (Allocations args r) s1) as [[r1 [e|]] s2]; simpl.
    { split; [done|]. exists [], r. split; [constructor|]. split; [done|].
      right. by exists r1. }
    specialize (IH r1 s2). unfold getAllocs_post in IH.
    destruct (run handle (getAllocs_loop fuel index args r1) s2)
      as [[[[allocs [e|]]|msg|] s3] t]; simpl.
    + destruct IH as [-> (t0 & r' & Hr & Hle' & Ht)]. split; [done|].
      exists (Ev queryLimiter_Wait None
                :: Ev (Allocations args r) (r1, None) :: t0), r'.
      split; [by constructor|]. split; [done|].
      destruct Ht as [->|[r'' ->]]; [by left|right; by exists r''].
    + destruct IH as (r' & Hr & Hlt & ->). exists r'.
      split; [by constructor|done].
    + done.
    + destruct IH as (r' & Hr & Hle' & Hlen). exists r'.
      split; [by constructor|]. split; [done|]. simpl. lia.
Qed.

(** Fuel only matters to a run that has used it up. *)
Lemma getAllocs_loop_fuel index args fuel fuel' :
  ∀ r s, (fuel <= fuel')%nat ->
    (run handle (getAllocs_loop fuel index args r) s).1.1 ≠ Spinning ->
    run handle (getAllocs_loop fuel' index args r) s =
    run handle (getAllocs_loop fuel index args r) s.
Proof.
  revert fuel'. induction fuel as [|fuel IH]; intros fuel' r s Hle.
  - rewrite getAllocs_loop_0. destruct fuel' as [|fuel'];
      [by rewrite getAllocs_loop_0|rewrite getAllocs_loop_S].
    by destruct (ALR_Index r <=? index).
  - destruct fuel' as [|fuel']; [lia|]. rewrite !getAllocs_loop_S.
    destruct (ALR_Index r <=? index); [|done]. simpl.
    destruct (handle queryLimiter_Wait s) as [[e|] s1]; simpl; [done|].
    destruct (handle (Allocations args r) s1) as [[r1 [e|]] s2]; simpl;
      [done|].
    intros Hns. rewrite (IH fuel' r1 s2); [done|lia|].
    by destruct (run handle (getAllocs_loop fuel index args r1) s2)
      as [[[?|?|] ?] ?].
Qed.

End RunFacts.

(** ** latestEvalIndex *)

(** C7: on every successful read of the job's evaluations, latestEvalIndex
    returns the store's current index when the list is empty, otherwise the
    first-listed evaluation's snapshot index when that is non-zero, otherwise
    that evaluation's create index; the read is one limiter wait followed by
    one query. *)
Theorem latestEvalIndex_returns {World : Type}
    (handle : forall c : Call, World -> Resp c * World)
    (w : deploymentWatcher) (s s1 s2 : World)
    (resp : JobEvaluationsResponse) :
  let args := {| JSR_JobID := Deployment_JobID (d w) |} in
  handle queryLimiter_Wait s = (None, s1) ->
  handle (Evaluations args zero_JobEvaluationsResponse) s1
    = ((resp, None), s2) ->
  run handle (latestEvalIndex w) s =
    (Done (spec_latestEvalIndex resp, None), s2,
     [Ev queryLimiter_Wait None;
      Ev (Evaluations args zero_JobEvaluationsResponse) (resp, None)]).
Proof.
  intros args Hwait Hread. unfold latestEvalIndex, spec_latestEvalIndex.
  simpl. rewrite Hwait. simpl. fold args. rewrite Hread. simpl.
  destruct (JER_Evaluations resp) as [|e rest]; simpl; [done|].
  case_decide as Hz.
  - apply N.eqb_neq in Hz. by rewrite Hz.
  - assert (Eval_SnapshotIndex e = 0) as Hz' by (destruct (decide (Eval_SnapshotIndex e = 0)); [done|contradiction]).
    apply N.eqb_eq in Hz'. by rewrite Hz'.
Qed.

Lemma latestEvalIndex_returns_witness :
  let args := {| JSR_JobID := "example" |} in
  let resp := {| JER_Evaluations := [Scripted.eval 0 7; Scripted.eval 4 2];
                 JER_Index := 9 |} in
  let s := Scripted.reads [None] [] [(resp, None)] [] in
  let s1 := Scripted.reads [] [] [(resp, None)] [] in
  Scripted.handle queryLimiter_Wait s = (None, s1) /\
  Scripted.handle (Evaluations args zero_JobEvaluationsResponse) s1
    = ((resp, None), Scripted.empty) /\
  (run Scripted.handle (latestEvalIndex Scripted.watcher) s).1.1
    = Done (7, None).
Proof.
  intros args resp s s1. split; [reflexivity|]. split; [reflexivity|].
  rewrite (latestEvalIndex_returns Scripted.handle Scripted.watcher
             s s1 Scripted.empty resp eq_refl eq_refl).
  reflexivity.
Defined.

(** ** getAllocs *)

(** C9: getAllocs repeats "wait on the rate limiter, then query"; it
    returns allocations without an error only after a response whose index
    exceeds the requested minimum, and returns otherwise only with the error
    of a limiter wait or of a query.  It never panics, and a run that has not
    returned within its fuel has made [fuel] full rounds. *)
Theorem getAllocs_returns_past_index {World : Type}
    (handle : forall c : Call, World -> Resp c * World)
    (w : deploymentWatcher) (fuel : nat) (index : N) (s : World) :
  getAllocs_post index
    {| DSR_DeploymentID := Deployment_ID (d w); DSR_MinQueryIndex := index |}
    fuel zero_AllocListResponse
    (run handle (getAllocs w fuel index) s).
Proof. apply getAllocs_loop_post. Qed.

(** More fuel does not change a run of getAllocs that has returned. *)
Lemma getAllocs_fuel {World : Type}
    (handle : forall c : Call, World -> Resp c * World)
    (w : deploymentWatcher) (fuel fuel' : nat) (index : N) (s : World) :
  (fuel <= fuel')%nat ->
  (run handle (getAllocs w fuel index) s).1.1 ≠ Spinning ->
  run handle (getAllocs w fuel' index) s = run handle (getAllocs w fuel index) s.
Proof. apply getAllocs_loop_fuel. Qed.

(** The loop body runs at least once: the zero response is never past the
    requested index. *)
Lemma getAllocs_queries_once {World : Type}
    (handle : forall c : Call, World -> Resp c * World)
    (w : deploymentWatcher) (fuel : nat) (index : N) (s s' : World)
    (allocs : list AllocListStub) (t : list Event) :
  run handle (getAllocs w fuel index) s = (Done (allocs, None), s', t) ->
  t ≠ [].
Proof.
  intros Hrun.
  pose proof (getAllocs_loop_post handle index
                {| DSR_DeploymentID := Deployment_ID (d w);
                   DSR_MinQueryIndex := index |}
                fuel zero_AllocListResponse s) as H.
  fold (getAllocs w fuel index) in H. rewrite Hrun in H. simpl in H. destruct H as (r' & Hr & Hlt & _).
  inversion Hr; subst; [|done]. simpl in Hlt. lia.
Qed.

(** ** PauseDeployment *)

Lemma run_getEval {World : Type}
    (handle : forall c : Call, World -> Resp c * World)
    (K : Constants) (w : deploymentWatcher) (s : World) :
  run handle (getEval K w) s =
  (Done (evaluation_of K w (handle GenerateUUID s).1),
   (handle GenerateUUID s).2,
   [Ev GenerateUUID (handle GenerateUUID s).1]).
Proof. unfold getEval. simpl. by destruct (handle GenerateUUID s). Qed.

(** C8: pausing writes a status update to paused with no evaluation and
    answers with an empty evaluation id; resuming writes a status update to
    running together with a fresh evaluation and answers with that
    evaluation's id, which is non-empty when the generated UUID is; when the
    write succeeds, both indexes of the response are the index the write
    returned. *)
Theorem PauseDeployment_result {World : Type}
    (handle : forall c : Call, World -> Resp c * World)
    (K : Constants) (w : deploymentWatcher)
    (req : DeploymentPauseRequest) (resp : DeploymentUpdateResponse)
    (s : World) :
  (handle GenerateUUID s).1 ≠ "" ->
  if Pause req then
    let u := {| DSU_DeploymentID := Deployment_ID (d w);
                DSU_Status := DeploymentStatusPaused K;
                DSU_StatusDescription := DeploymentStatusDescriptionPaused K |} in
    let '(r, s1) := handle (upsertDeploymentStatusUpdate u None None) s in
    run handle (PauseDeployment K w req resp) s =
      (Done (response_of resp "" r), s1,
       [Ev (upsertDeploymentStatusUpdate u None None) r])
  else
    let '(id, s1) := handle GenerateUUID s in
    let eval := evaluation_of K w id in
    let u := {| DSU_DeploymentID := Deployment_ID (d w);
                DSU_Status := DeploymentStatusRunning K;
                DSU_StatusDescription := DeploymentStatusDescriptionRunning K |} in
    let '(r, s2) := handle (upsertDeploymentStatusUpdate u (Some eval) None) s1 in
    run handle (PauseDeployment K w req resp) s =
      (Done (response_of resp (Eval_ID eval) r), s2,
       [Ev GenerateUUID id;
        Ev (upsertDeploymentStatusUpdate u (Some eval) None) r])
    /\ Eval_ID eval ≠ ""
    /\ (r.2 = None ->
        response_of resp (Eval_ID eval) r =
          ({| EvalID := id; EvalCreateIndex := r.1;
              DeploymentModifyIndex := r.1 |}, None)).
Proof.
  intros Hid. unfold PauseDeployment. destruct (Pause req); simpl.
  - unfold getDeploymentStatusUpdate.
    destruct (handle (upsertDeploymentStatusUpdate _ None None) s)
      as [[i [e|]] s1]; reflexivity.
  - destruct (handle GenerateUUID s) as [id s1] eqn:Hgen. simpl in Hid.
    unfold getDeploymentStatusUpdate. fold (evaluation_of K w id).
    destruct (handle (upsertDeploymentStatusUpdate _ _ None) s1)
      as [[i [e|]] s2]; simpl; (split; [reflexivity|split; [done|done]]).
Qed.

Lemma PauseDeployment_result_witness :
  let s := Scripted.with_writes Scripted.empty [(12, None)] ["u1"] in
  (Scripted.handle GenerateUUID s).1 ≠ "" /\
  (run Scripted.handle
     (PauseDeployment Scripted.consts Scripted.watcher
        {| DPR_DeploymentID := "d1"; Pause := false |} Scripted.no_response)
     s).1.1
  = Done ({| EvalID := "u1"; EvalCreateIndex := 12;
             DeploymentModifyIndex := 12 |}, None).
Proof.
  intros s.
  assert ((Scripted.handle GenerateUUID s).1 ≠ "") as Hid by (simpl; discriminate).
  split; [exact Hid|].
  destruct (PauseDeployment_result Scripted.handle Scripted.consts
              Scripted.watcher {| DPR_DeploymentID := "d1"; Pause := false |}
              Scripted.no_response s Hid) as [H _].
  rewrite H. reflexivity.
Defined.

(** The two halves of the scenario of the spec, on the same deployment. *)
Example PauseDeployment_pause_then_resume :
  let s := Scripted.with_writes Scripted.empty [(12, None); (13, None)] ["u1"] in
  let paused :=
    run Scripted.handle
      (PauseDeployment Scripted.consts Scripted.watcher
         {| DPR_DeploymentID := "d1"; Pause := true |} Scripted.no_response) s in
  let resumed :=
    run Scripted.handle
      (PauseDeployment Scripted.consts Scripted.watcher
         {| DPR_DeploymentID := "d1"; Pause := false |} Scripted.no_response)
      paused.1.2 in
  paused.1.1 = Done ({| EvalID := ""; EvalCreateIndex := 12;
                        DeploymentModifyIndex := 12 |}, None) /\
  resumed.1.1 = Done ({| EvalID := "u1"; EvalCreateIndex := 13;
                         DeploymentModifyIndex := 13 |}, None).
Proof. split; reflexivity. Qed.

(** ** SetAllocHealth *)

Section SetAllocHealthFacts.
Context {World : Type}.
Variable handle : forall c : Call, World -> Resp c * World.
Variable K : Constants.
Variable w : deploymentWatcher.

Lemma run_latestStableJob (s : World) :
  let args := {| JSR_JobID := Deployment_JobID (d w) |} in
  run handle (latestStableJob w) s =
  let '((vr, err), s1) := handle (GetJobVersions args zero_JobVersionsResponse) s in
  (Done (match err with
         | Some e => (None, Some e)
         | None => (find Job_Stable (JVR_Versions vr), None)
         end), s1,
   [Ev (GetJobVersions args zero_JobVersionsResponse) (vr, err)]).
Proof.
  intros args. unfold latestStableJob. fold args. simpl.
  by destruct (handle (GetJobVersions args zero_JobVersionsResponse) s)
    as [[vr [e|]] s1].
Qed.

(** The loop over the re-fetched allocations looks the stable job up once,
    for the first eligible allocation, and not at all without one. *)
Lemma run_scan_unhealthy (unhealthy : gset string)
    (allocs : list AllocListStub) (desc : string) (s : World) :
  let args := {| JSR_JobID := Deployment_JobID (d w) |} in
  run handle (scan_unhealthy w unhealthy allocs desc) s =
  match find (eligible w unhealthy) allocs with
  | None => (Done (scan_done None desc), s, [])
  | Some _ =>
      let '((vr, err), s1) :=
        handle (GetJobVersions args zero_JobVersionsResponse) s in
      let lookup := Ev (GetJobVersions args zero_JobVersionsResponse) (vr, err) in
      match err, find Job_Stable (JVR_Versions vr) with
      | Some e, _ => (Done (scan_return e), s1, [lookup])
      | None, Some job =>
          (Done (scan_done (Some job)
                   (Sprintf_rollback desc (Job_Version job))), s1, [lookup])
      | None, None => (Panicked nil_dereference, s1, [lookup])
      end
  end.
Proof.
  intros args. induction allocs as [|alloc rest IH]; [done|].
  cbn [scan_unhealthy find]. unfold eligible at 1.
  destruct (bool_decide (Alloc_ID alloc ∈ unhealthy)); cbn [negb andb];
    [|exact IH].
  destruct (map_index (autorevert w) (Alloc_TaskGroup alloc)); cbn [negb];
    [|exact IH].
  rewrite run_bind, run_latestStableJob. fold args.
  destruct (handle (GetJobVersions args zero_JobVersionsResponse) s)
    as [[vr [e|]] s1]; [done|].
  by destruct (find Job_Stable (JVR_Versions vr)).
Qed.

Lemma run_health_commit (req : DeploymentAllocHealthRequest)
    (resp : DeploymentUpdateResponse) (j : option Job)
    (u : option DeploymentStatusUpdate) (s : World) :
  run handle
    (let* eval := getEval K w in
     let areq := {| ADAH_Request := req; ADAH_Eval := eval;
                    ADAH_DeploymentUpdate := u; ADAH_Job := j |} in
     let* (index, err) := call (upsertDeploymentAllocHealth areq) in
     match err with
     | Some e => Ret (resp, Some e)
     | None =>
         Ret ({| EvalID := Eval_ID (ADAH_Eval areq);
                 EvalCreateIndex := index;
                 DeploymentModifyIndex := index |}, None)
     end)%prog s
  = health_commit handle K w req resp j u s.
Proof.
  unfold health_commit, getEval. simpl.
  destruct (handle GenerateUUID s) as [id s1]. fold (evaluation_of K w id).
  by destruct (handle (upsertDeploymentAllocHealth _) s1) as [[i [e|]] s2].
Qed.

(** The whole of SetAllocHealth for a request that reports unhealthy
    allocations, once the allocations have been re-fetched. *)
Lemma run_SetAllocHealth_unhealthy (req : DeploymentAllocHealthRequest)
    (resp : DeploymentUpdateResponse) (s s1 : World)
    (aresp : AllocListResponse) :
  let args := {| DSR_DeploymentID := DAH_DeploymentID req;
                 DSR_MinQueryIndex := 0 |} in
  let jargs := {| JSR_JobID := Deployment_JobID (d w) |} in
  let unhealthy : gset string := list_to_set (UnhealthyAllocationIDs req) in
  let base := DeploymentStatusDescriptionFailedAllocations K in
  let read := Ev (Allocations args zero_AllocListResponse) (aresp, None) in
  UnhealthyAllocationIDs req ≠ [] ->
  handle (Allocations args zero_AllocListResponse) s = ((aresp, None), s1) ->
  run handle (SetAllocHealth K w req resp) s =
  match find (eligible w unhealthy) (ALR_Allocations aresp) with
  | None =>
      after [read]
        (health_commit handle K w req resp None
           (Some (failed_update K w base)) s1)
  | Some _ =>
      let '((vr, err), s2) :=
        handle (GetJobVersions jargs zero_JobVersionsResponse) s1 in
      let lookup := Ev (GetJobVersions jargs zero_JobVersionsResponse) (vr, err) in
      match err, find Job_Stable (JVR_Versions vr) with
      | Some e, _ => (Done (resp, Some e), s2, [read; lookup])
      | None, Some job =>
          after [read; lookup]
            (health_commit handle K w req resp (Some job)
               (Some (failed_update K w
                        (Sprintf_rollback base (Job_Version job)))) s2)
      | None, None => (Panicked nil_dereference, s2, [read; lookup])
      end
  end.
Proof.
  intros args jargs unhealthy base read Hne Hread.
  unfold SetAllocHealth.
  assert (negb (length (UnhealthyAllocationIDs req) =? 0)%nat = true) as ->
    by (by destruct (UnhealthyAllocationIDs req)).
  fold args unhealthy base.
  rewrite run_bind. rewrite run_bind. rewrite run_call, Hread.
  cbn [fst snd]. rewrite run_bind, run_scan_unhealthy. fold jargs.
  destruct (find (eligible w unhealthy) (ALR_Allocations aresp)).
  - destruct (handle (GetJobVersions jargs zero_JobVersionsResponse) s1)
      as [[vr [e|]] s2]; [by cbn [run app]|].
    destruct (find Job_Stable (JVR_Versions vr)) as [job|];
      [|by cbn [run app]].
    cbn [run app]. rewrite run_health_commit.
    unfold getDeploymentStatusUpdate, failed_update, after.
    by destruct (health_commit _ _ _ _ _ _ _ _) as [[o s3] t].
  - cbn [run app]. rewrite run_health_commit.
    unfold getDeploymentStatusUpdate, failed_update, after.
    by destruct (health_commit _ _ _ _ _ _ _ _) as [[o s3] t].
Qed.

End SetAllocHealthFacts.

(** No allocation is eligible exactly when every re-fetched allocation that
    the request reports unhealthy is in a task group without autorevert. *)
Lemma no_eligible_iff (w : deploymentWatcher) (ids : list string)
    (allocs : list AllocListStub) :
  find (eligible w (list_to_set ids)) allocs = None <->
  ∀ a, a ∈ allocs -> Alloc_ID a ∈ ids ->
       map_index (autorevert w) (Alloc_TaskGroup a) = false.
Proof.
  induction allocs as [|a rest IH]; simpl.
  - split; [|done]. intros _ a Ha. by apply elem_of_nil in Ha.
  - unfold eligible at 1.
    destruct (bool_decide_reflect (Alloc_ID a ∈ (list_to_set ids : gset string)))
      as [Hin|Hnin]; simpl.
    + apply elem_of_list_to_set in Hin.
      destruct (map_index (autorevert w) (Alloc_TaskGroup a)) eqn:Hauto.
      * split; [done|]. intros H. specialize (H a). rewrite Hauto in H.
        by discriminate H; [left|].
      * rewrite IH. split.
        -- intros H b Hb Hid. apply elem_of_cons in Hb as [->|Hb]; eauto.
        -- intros H b Hb. apply H. by right.
    + rewrite IH. split.
      * intros H b Hb Hid. apply elem_of_cons in Hb as [->|Hb]; eauto.
        exfalso. apply Hnin. by apply elem_of_list_to_set.
      * intros H b Hb. apply H. by right.
Qed.

(** C6: for a request with a non-empty unhealthy list whose re-fetch of the
    allocations succeeds, the status update of the write is failed; the scan
    stops at the first re-fetched allocation that is reported unhealthy and
    whose task group has autorevert, with one lookup of the stable job made
    for it, and the rollback job and the "rolling back to job version N"
    description come from that lookup only; when every reported-unhealthy
    allocation is in a task group without autorevert, no lookup is made and
    the write carries the failed status with the base description and no
    job. *)
Theorem SetAllocHealth_stops_at_first_eligible {World : Type}
    (handle : forall c : Call, World -> Resp c * World)
    (K : Constants) (w : deploymentWatcher)
    (req : DeploymentAllocHealthRequest) (resp : DeploymentUpdateResponse)
    (s s1 : World) (aresp : AllocListResponse) :
  let args := {| DSR_DeploymentID := DAH_DeploymentID req;
                 DSR_MinQueryIndex := 0 |} in
  let jargs := {| JSR_JobID := Deployment_JobID (d w) |} in
  let unhealthy : gset string := list_to_set (UnhealthyAllocationIDs req) in
  let base := DeploymentStatusDescriptionFailedAllocations K in
  let read := Ev (Allocations args zero_AllocListResponse) (aresp, None) in
  UnhealthyAllocationIDs req ≠ [] ->
  handle (Allocations args zero_AllocListResponse) s = ((aresp, None), s1) ->
  (find (eligible w unhealthy) (ALR_Allocations aresp) = None <->
   ∀ a, a ∈ ALR_Allocations aresp -> Alloc_ID a ∈ UnhealthyAllocationIDs req ->
        map_index (autorevert w) (Alloc_TaskGroup a) = false) /\
  run handle (SetAllocHealth K w req resp) s =
  match find (eligible w unhealthy) (ALR_Allocations aresp) with
  | None =>
      after [read]
        (health_commit handle K w req resp None
           (Some (failed_update K w base)) s1)
  | Some _ =>
      let '((vr, err), s2) :=
        handle (GetJobVersions jargs zero_JobVersionsResponse) s1 in
      let lookup := Ev (GetJobVersions jargs zero_JobVersionsResponse) (vr, err) in
      match err, find Job_Stable (JVR_Versions vr) with
      | Some e, _ => (Done (resp, Some e), s2, [read; lookup])
      | None, Some job =>
          after [read; lookup]
            (health_commit handle K w req resp (Some job)
               (Some (failed_update K w
                        (Sprintf_rollback base (Job_Version job)))) s2)
      | None, None => (Panicked nil_dereference, s2, [read; lookup])
      end
  end.
Proof.
  intros args jargs unhealthy base read Hne Hread. split.
  - apply no_eligible_iff.
  - by apply run_SetAllocHealth_unhealthy.
Qed.

Lemma SetAllocHealth_stops_at_first_eligible_witness :
  let req := Scripted.report ["a1"; "a2"; "a3"] in
  let vs := [Scripted.job 2 false; Scripted.job 1 true; Scripted.job 0 true] in
  let result :=
    run Scripted.handle
      (SetAllocHealth Scripted.consts Scripted.watcher req Scripted.no_response)
      (Scripted.health_script vs) in
  UnhealthyAllocationIDs req ≠ [] /\
  Scripted.handle (Allocations Scripted.health_args zero_AllocListResponse)
    (Scripted.health_script vs)
    = ((Scripted.three_allocs, None), Scripted.after_refetch vs) /\
  result.1.1 = Done ({| EvalID := "u1"; EvalCreateIndex := 20;
                        DeploymentModifyIndex := 20 |}, None) /\
  version_lookups result.2 = [{| JSR_JobID := "example" |}] /\
  health_writes result.2 =
    [{| ADAH_Request := req;
        ADAH_Eval := evaluation_of Scripted.consts Scripted.watcher "u1";
        ADAH_DeploymentUpdate :=
          Some (failed_update Scripted.consts Scripted.watcher
                  "Failed due to unhealthy allocations - rolling back to job version 1");
        ADAH_Job := Some (Scripted.job 1 true) |}].
Proof.
  intros req vs result.
  assert (UnhealthyAllocationIDs req ≠ []) as Hne by discriminate.
  split; [exact Hne|]. split; [reflexivity|].
  destruct (SetAllocHealth_stops_at_first_eligible Scripted.handle
              Scripted.consts Scripted.watcher req Scripted.no_response
              (Scripted.health_script vs) (Scripted.after_refetch vs)
              Scripted.three_allocs Hne eq_refl) as [_ H].
  unfold result. rewrite H. vm_compute. repeat split.
Defined.

Section SetAllocHealthWrites.
Context {World : Type}.
Variable handle : forall c : Call, World -> Resp c * World.
Variable K : Constants.
Variable w : deploymentWatcher.

Lemma health_writes_commit (req : DeploymentAllocHealthRequest)
    (resp : DeploymentUpdateResponse) (j : option Job)
    (u : option DeploymentStatusUpdate) (s : World) :
  health_writes (health_commit handle K w req resp j u s).2 =
  [{| ADAH_Request := req;
      ADAH_Eval := evaluation_of K w (handle GenerateUUID s).1;
      ADAH_DeploymentUpdate := u;
      ADAH_Job := j |}].
Proof.
  unfold health_commit. destruct (handle GenerateUUID s) as [id s1].
  by destruct (handle (upsertDeploymentAllocHealth _) s1) as [r s2].
Qed.

(** A request that reports no unhealthy allocation is written without a
    status update and without a job. *)
Lemma run_SetAllocHealth_healthy (req : DeploymentAllocHealthRequest)
    (resp : DeploymentUpdateResponse) (s : World) :
  UnhealthyAllocationIDs req = [] ->
  run handle (SetAllocHealth K w req resp) s =
  health_commit handle K w req resp None None s.
Proof.
  intros Hnil. unfold SetAllocHealth. rewrite Hnil. cbn [length Nat.eqb negb].
  cbn [bind]. apply run_health_commit.
Qed.

(** A failed re-fetch of the allocations ends the operation with the error
    and without a write. *)
Lemma run_SetAllocHealth_refetch_error (req : DeploymentAllocHealthRequest)
    (resp : DeploymentUpdateResponse) (s s1 : World)
    (aresp : AllocListResponse) (e : error) :
  let args := {| DSR_DeploymentID := DAH_DeploymentID req;
                 DSR_MinQueryIndex := 0 |} in
  UnhealthyAllocationIDs req ≠ [] ->
  handle (Allocations args zero_AllocListResponse) s = ((aresp, Some e), s1) ->
  run handle (SetAllocHealth K w req resp) s =
  (Done (resp, Some e), s1,
   [Ev (Allocations args zero_AllocListResponse) (aresp, Some e)]).
Proof.
  intros args Hne Hread. unfold SetAllocHealth.
  assert (negb (length (UnhealthyAllocationIDs req) =? 0)%nat = true) as ->
    by (by destruct (UnhealthyAllocationIDs req)).
  fold args. rewrite run_bind. rewrite run_bind. rewrite run_call, Hread.
  reflexivity.
Qed.

(** Every allocation-health write made for a request that reports unhealthy
    allocations carries a status update to failed. *)
Lemma SetAllocHealth_writes_failed (req : DeploymentAllocHealthRequest)
    (resp : DeploymentUpdateResponse) (s : World) :
  UnhealthyAllocationIDs req ≠ [] ->
  ∀ areq,
    areq ∈ health_writes (run handle (SetAllocHealth K w req resp) s).2 ->
    ∃ desc, ADAH_DeploymentUpdate areq = Some (failed_update K w desc).
Proof.
  intros Hne areq.
  destruct (handle (Allocations {| DSR_DeploymentID := DAH_DeploymentID req;
                                   DSR_MinQueryIndex := 0 |}
                      zero_AllocListResponse) s)
    as [[aresp [e|]] s1] eqn:Hread.
  { rewrite (run_SetAllocHealth_refetch_error req resp s s1 aresp e Hne Hread).
    cbn. intros H. by apply elem_of_nil in H. }
  rewrite (run_SetAllocHealth_unhealthy handle K w req resp s s1 aresp Hne Hread).
  destruct (find _ (ALR_Allocations aresp)).
  - destruct (handle (GetJobVersions _ _) s1) as [[vr [e|]] s2].
    { cbn. intros H. by apply elem_of_nil in H. }
    destruct (find Job_Stable (JVR_Versions vr)) as [job|].
    2:{ cbn. intros H. by apply elem_of_nil in H. }
    unfold after. cbn [snd app]. change (health_writes (?a :: ?b :: ?t))
      with (health_writes t). rewrite health_writes_commit.
    intros ->%list_elem_of_singleton. by eexists.
  - unfold after. cbn [snd app]. change (health_writes (?a :: ?t))
      with (health_writes t). rewrite health_writes_commit.
    intros ->%list_elem_of_singleton. by eexists.
Qed.

End SetAllocHealthWrites.

(** C10: the status update to failed depends on the request only: every
    write SetAllocHealth makes for a request with a non-empty unhealthy list
    carries it, and when the re-fetch succeeds and none of the reported ids
    matches a re-fetched allocation the write is made all the same, with the
    base description and without a rollback job. *)
Theorem SetAllocHealth_failed_from_request {World : Type}
    (handle : forall c : Call, World -> Resp c * World)
    (K : Constants) (w : deploymentWatcher)
    (req : DeploymentAllocHealthRequest) (resp : DeploymentUpdateResponse)
    (s : World) :
  let args := {| DSR_DeploymentID := DAH_DeploymentID req;
                 DSR_MinQueryIndex := 0 |} in
  let base := DeploymentStatusDescriptionFailedAllocations K in
  UnhealthyAllocationIDs req ≠ [] ->
  (∀ areq,
     areq ∈ health_writes (run handle (SetAllocHealth K w req resp) s).2 ->
     ∃ desc, ADAH_DeploymentUpdate areq = Some (failed_update K w desc)) /\
  (∀ aresp s1,
     handle (Allocations args zero_AllocListResponse) s = ((aresp, None), s1) ->
     (∀ a, a ∈ ALR_Allocations aresp ->
           Alloc_ID a ∉ UnhealthyAllocationIDs req) ->
     run handle (SetAllocHealth K w req resp) s =
     after [Ev (Allocations args zero_AllocListResponse) (aresp, None)]
       (health_commit handle K w req resp None
          (Some (failed_update K w base)) s1)).
Proof.
  intros args base Hne. split.
  - by apply SetAllocHealth_writes_failed.
  - intros aresp s1 Hread Hnone.
    rewrite (run_SetAllocHealth_unhealthy handle K w req resp s s1 aresp
               Hne Hread).
    assert (find (eligible w (list_to_set (UnhealthyAllocationIDs req)))
              (ALR_Allocations aresp) = None) as ->; [|done].
    apply no_eligible_iff. intros a Ha Hid. by destruct (Hnone a Ha).
Qed.

Lemma SetAllocHealth_failed_from_request_witness :
  let req := Scripted.report ["zz"] in
  let result :=
    run Scripted.handle
      (SetAllocHealth Scripted.consts Scripted.watcher req Scripted.no_response)
      (Scripted.health_script []) in
  UnhealthyAllocationIDs req ≠ [] /\
  (∀ areq, areq ∈ health_writes result.2 ->
     ∃ desc, ADAH_DeploymentUpdate areq
             = Some (failed_update Scripted.consts Scripted.watcher desc)) /\
  health_writes result.2 =
    [{| ADAH_Request := req;
        ADAH_Eval := evaluation_of Scripted.consts Scripted.watcher "u1";
        ADAH_DeploymentUpdate :=
          Some (failed_update Scripted.consts Scripted.watcher
                  "Failed due to unhealthy allocations");
        ADAH_Job := None |}].
Proof.
  intros req result.
  assert (UnhealthyAllocationIDs req ≠ []) as Hne by discriminate.
  split; [exact Hne|].
  destruct (SetAllocHealth_failed_from_request Scripted.handle
              Scripted.consts Scripted.watcher req Scripted.no_response
              (Scripted.health_script []) Hne) as [Hall Hrun].
  split; [exact Hall|].
  unfold result.
  rewrite (Hrun Scripted.three_allocs (Scripted.after_refetch []) eq_refl).
  - reflexivity.
  - intros a Ha Hid. apply list_elem_of_singleton in Hid.
    repeat (apply elem_of_cons in Ha as [->|Ha]; [discriminate Hid|]).
    by apply elem_of_nil in Ha.
Defined.

(** ** The nil stable job in SetAllocHealth *)

(** C5 (the code fails the claim): a request reporting unhealthy an
    allocation of an autoreverting task group, while no version of the job
    is flagged stable, makes SetAllocHealth read the version of a nil job:
    the operation panics, with neither a response nor an error, and makes no
    write. *)
Theorem SetAllocHealth_nil_stable_job_panics :
  let req := Scripted.report ["a2"] in
  let vs := [Scripted.job 2 false; Scripted.job 1 false] in
  let result :=
    run Scripted.handle
      (SetAllocHealth Scripted.consts Scripted.watcher req Scripted.no_response)
      (Scripted.health_script vs) in
  map_index (autorevert Scripted.watcher) "web" = true /\
  find Job_Stable vs = None /\
  result.1.1 = Panicked nil_dereference /\
  health_writes result.2 = [].
Proof. repeat split. Qed.

(** The same in any environment: an eligible allocation and a successful
    lookup that finds no stable version end in the panic. *)
Lemma SetAllocHealth_panics_without_stable_job {World : Type}
    (handle : forall c : Call, World -> Resp c * World)
    (K : Constants) (w : deploymentWatcher)
    (req : DeploymentAllocHealthRequest) (resp : DeploymentUpdateResponse)
    (s s1 s2 : World) (aresp : AllocListResponse) (a : AllocListStub)
    (vr : JobVersionsResponse) :
  UnhealthyAllocationIDs req ≠ [] ->
  handle (Allocations {| DSR_DeploymentID := DAH_DeploymentID req;
                         DSR_MinQueryIndex := 0 |} zero_AllocListResponse) s
    = ((aresp, None), s1) ->
  find (eligible w (list_to_set (UnhealthyAllocationIDs req)))
    (ALR_Allocations aresp) = Some a ->
  handle (GetJobVersions {| JSR_JobID := Deployment_JobID (d w) |}
            zero_JobVersionsResponse) s1 = ((vr, None), s2) ->
  find Job_Stable (JVR_Versions vr) = None ->
  (run handle (SetAllocHealth K w req resp) s).1.1 = Panicked nil_dereference.
Proof.
  intros Hne Hread Hfind Hlookup Hstable.
  rewrite (run_SetAllocHealth_unhealthy handle K w req resp s s1 aresp
             Hne Hread), Hfind, Hlookup, Hstable.
  reflexivity.
Qed.

(** ** The scan of a cycle *)

Lemma scan_allocs_from (w : deploymentWatcher) (v : N)
    (allocs : list AllocListStub) :
  ∀ fl, scan_allocs w v allocs fl =
        {| createEval_flag :=
             createEval_flag fl || createEval_flag (spec_scan w v allocs);
           failDeployment_flag :=
             failDeployment_flag fl || failDeployment_flag (spec_scan w v allocs);
           rollback_flag :=
             rollback_flag fl || rollback_flag (spec_scan w v allocs) |}.
Proof.
  induction allocs as [|a rest IH]; intros fl.
  - destruct fl as [c f r]. simpl. by rewrite !orb_false_r.
  - cbn [scan_allocs spec_scan existsb createEval_flag failDeployment_flag
         rollback_flag].
    unfold fresh, unhealthy_alloc.
    destruct (Alloc_DeploymentStatus a) as [ds|]; [|by rewrite IH].
    rewrite N.ltb_antisym. destruct (ModifyIndex ds <=? v); cbn [negb andb orb].
    { by rewrite IH. }
    destruct fl as [c f r]. cbn [createEval_flag failDeployment_flag rollback_flag].
    destruct (IsUnhealthy ds), (map_index (autorevert w) (Alloc_TaskGroup a)),
      f, r; cbn [andb orb]; rewrite ?IH;
      cbn [createEval_flag failDeployment_flag rollback_flag andb orb];
      rewrite ?orb_true_r; reflexivity.
Qed.

(** The scan computes, for the watermark it is given, the flags the spec
    describes. *)
Lemma scan_allocs_spec (w : deploymentWatcher) (v : N)
    (allocs : list AllocListStub) :
  scan_allocs w v allocs no_flags = spec_scan w v allocs.
Proof. rewrite scan_allocs_from. by destruct (spec_scan w v allocs). Qed.

(** ** One cycle of the watch loop *)

Section CycleFacts.
Context {World : Type}.
Variable handle : forall c : Call, World -> Resp c * World.
Variable K : Constants.
Variable w : deploymentWatcher.

Ltac step_run :=
  repeat (match goal with
          | |- context [handle ?c ?s] =>
              destruct (handle c s) as [? ?] eqn:?
          | |- context [match ?x with _ => _ end] => is_var x; destruct x
          | |- context [find ?f ?l] => destruct (find f l) eqn:?
          end; cbn).

Lemma cycle_reaction_post (v : N) (fl : scan_flags) (s : World) :
  reaction_post v fl (run handle (cycle_reaction K w v fl) s).
Proof.
  unfold cycle_reaction, reaction_post, watermark_after.
  destruct fl as [c f r]; cbn. step_run.
  all: repeat split; try done.
Qed.

(** The second half of a cycle makes no call at all exactly when the scan
    set neither the evaluation flag nor the failure flag. *)
Lemma cycle_reaction_idle (v : N) (fl : scan_flags) (s : World) :
  (run handle (cycle_reaction K w v fl) s).2 = [] <->
  createEval_flag fl = false ∧ failDeployment_flag fl = false.
Proof.
  unfold cycle_reaction.
  destruct fl as [c f r]; cbn. destruct f, c; cbn; step_run.
  all: split; [try discriminate; try done|intros [? ?]; try discriminate; try done].
Qed.

Lemma run_watch_cycle_reads (fuel : nat) (wm v : N) (s s1 s2 : World)
    (allocs : list AllocListStub) (t1 t2 : list Event) :
  run handle (getAllocs w fuel wm) s = (Done (allocs, None), s1, t1) ->
  run handle (latestEvalIndex w) s1 = (Done (v, None), s2, t2) ->
  run handle (watch_cycle K w fuel wm) s =
  after (t1 ++ t2)
    (run handle (cycle_reaction K w v (spec_scan w v allocs)) s2).
Proof.
  intros Hallocs Hindex. unfold watch_cycle.
  rewrite run_bind, Hallocs. cbn [log_if_error bind].
  rewrite run_bind, Hindex. cbn [log_if_error bind].
  rewrite scan_allocs_spec. unfold after.
  destruct (run handle (cycle_reaction K w v (spec_scan w v allocs)) s2)
    as [[o s3] t3]. cbn [fst snd]. by rewrite app_assoc.
Qed.

(** A read of the latest evaluation index that fails with an error other
    than cancellation leaves 0 in [latestEval] for the rest of the cycle. *)
Lemma run_watch_cycle_index_error (fuel : nat) (wm v : N) (s s1 s2 : World)
    (allocs : list AllocListStub) (t1 t2 : list Event) (msg : string) :
  let format :=
    "[ERR] nomad.deployment_watcher: failed to determine last evaluation index for job %q: %v" in
  let args := [arg_string (Deployment_JobID (d w));
               arg_error (errors_New msg)] in
  run handle (getAllocs w fuel wm) s = (Done (allocs, None), s1, t1) ->
  run handle (latestEvalIndex w) s1
    = (Done (v, Some (errors_New msg)), s2, t2) ->
  v = 0 ∧
  run handle (watch_cycle K w fuel wm) s =
  after (t1 ++ t2 ++ [Ev (logger_Printf format args)
                         (handle (logger_Printf format args) s2).1])
    (run handle (cycle_reaction K w 0 (spec_scan w 0 allocs))
       (handle (logger_Printf format args) s2).2).
Proof.
  intros format args Hallocs Hindex.
  assert (v = 0) as ->.
  { revert Hindex. unfold latestEvalIndex. cbn.
    destruct (handle queryLimiter_Wait s1) as [[e|] s3]; cbn; [congruence|].
    destruct (handle (Evaluations _ _) s3) as [[resp [e|]] s4]; cbn;
      [congruence|].
    destruct (JER_Evaluations resp) as [|e rest]; cbn; [congruence|].
    destruct (negb _); cbn; congruence. }
  split; [done|]. unfold watch_cycle.
  rewrite run_bind, Hallocs. cbn [log_if_error bind].
  rewrite run_bind, Hindex. cbn [log_if_error]. unfold call.
  cbn [bind run]. fold format args. rewrite scan_allocs_spec. unfold after.
  destruct (handle (logger_Printf format args) s2) as [u s3]. cbn [fst snd].
  destruct (run handle (cycle_reaction K w 0 (spec_scan w 0 allocs)) s3)
    as [[o s4] t4]. cbn [fst snd]. by rewrite <- !app_assoc.
Qed.

End CycleFacts.

(** C2 (amended): in a cycle whose two reads succeed, the flags of the scan
    are set for exactly the allocations whose deployment-status modify index
    exceeds the latest evaluation index just read in step 2, the value
    [latestEval] holds during the scan; the cycle then ends with these
    flags, or panics when both the failure and the rollback flag are set. *)
Theorem watch_cycle_scans_against_read_index {World : Type}
    (handle : forall c : Call, World -> Resp c * World)
    (K : Constants) (w : deploymentWatcher) (fuel : nat) (wm v : N)
    (s s1 s2 : World) (allocs : list AllocListStub) (t1 t2 : list Event) :
  run handle (getAllocs w fuel wm) s = (Done (allocs, None), s1, t1) ->
  run handle (latestEvalIndex w) s1 = (Done (v, None), s2, t2) ->
  match (run handle (watch_cycle K w fuel wm) s).1.1 with
  | Done (cycle_next _ fl) => fl = spec_scan w v allocs
  | Done cycle_return => False
  | Panicked _ =>
      failDeployment_flag (spec_scan w v allocs) = true ∧
      rollback_flag (spec_scan w v allocs) = true
  | Spinning => False
  end.
Proof.
  intros Hallocs Hindex.
  rewrite (run_watch_cycle_reads handle K w fuel wm v s s1 s2 allocs t1 t2
             Hallocs Hindex).
  pose proof (cycle_reaction_post handle K w v (spec_scan w v allocs) s2) as H.
  unfold reaction_post in H. unfold after.
  destruct (run handle (cycle_reaction K w v (spec_scan w v allocs)) s2)
    as [[[[|wm' fl]|msg|] s3] t3]; cbn [fst snd]; [done| |tauto|done].
  by destruct H as [-> _].
Qed.

Lemma watch_cycle_scans_against_read_index_witness :
  let allocs := [Scripted.alloc "a1" "web" (Some true) 10] in
  let s := Scripted.cycle_script allocs 11 [Scripted.eval 20 18] 21 [] in
  (run Scripted.handle (getAllocs Scripted.watcher 3 5) s).1.1
    = Done (allocs, None) /\
  (run Scripted.handle (latestEvalIndex Scripted.watcher)
     (run Scripted.handle (getAllocs Scripted.watcher 3 5) s).1.2).1.1
    = Done (20, None) /\
  match (run Scripted.handle
           (watch_cycle Scripted.consts Scripted.watcher 3 5) s).1.1 with
  | Done (cycle_next _ fl) => fl = spec_scan Scripted.watcher 20 allocs
  | _ => False
  end.
Proof.
  intros allocs s. split; [reflexivity|]. split; [reflexivity|].
  pose proof (watch_cycle_scans_against_read_index Scripted.handle
                Scripted.consts Scripted.watcher 3 5 20 s _ _ allocs _ _
                eq_refl eq_refl) as H.
  destruct (run Scripted.handle
              (watch_cycle Scripted.consts Scripted.watcher 3 5) s).1.1
    as [[|wm' fl]|msg|]; [done|exact H| |done].
  exfalso. destruct H as [H _]. discriminate H.
Defined.

(** C2 as the spec has it fails: with the watermark at 5 when the cycle
    starts, an allocation modified at index 10 and a latest evaluation index
    of 20, no flag is set, although 10 exceeds the previous watermark. *)
Lemma watch_cycle_ignores_previous_watermark :
  ¬ (∀ (World : Type) (handle : forall c : Call, World -> Resp c * World)
       (K : Constants) (w : deploymentWatcher) (fuel : nat) (wm wm' : N)
       (s s1 s' : World) (allocs : list AllocListStub)
       (t1 t : list Event) (fl : scan_flags),
       run handle (getAllocs w fuel wm) s = (Done (allocs, None), s1, t1) ->
       run handle (watch_cycle K w fuel wm) s
         = (Done (cycle_next wm' fl), s', t) ->
       fl = spec_scan w wm allocs).
Proof.
  intros H.
  pose (allocs := [Scripted.alloc "a1" "web" (Some true) 10]).
  pose (s := Scripted.cycle_script allocs 11 [Scripted.eval 20 18] 21 []).
  specialize (H _ Scripted.handle Scripted.consts Scripted.watcher 3%nat 5 20
                s _ _ allocs _ _ no_flags eq_refl eq_refl).
  discriminate H.
Qed.

(** C4 (amended): in a cycle whose two reads succeed and which goes on to
    the next cycle, [latestEval] ends as the index returned by the cycle's
    status-update write when that write was made and succeeded, and
    otherwise as the value the read of the latest evaluation index returned
    in this cycle; the value it had when the cycle started plays no part. *)
Theorem watch_cycle_watermark {World : Type}
    (handle : forall c : Call, World -> Resp c * World)
    (K : Constants) (w : deploymentWatcher) (fuel : nat) (wm v wm' : N)
    (s s1 s2 s' : World) (allocs : list AllocListStub)
    (t1 t2 t : list Event) (fl : scan_flags) :
  run handle (getAllocs w fuel wm) s = (Done (allocs, None), s1, t1) ->
  run handle (latestEvalIndex w) s1 = (Done (v, None), s2, t2) ->
  run handle (watch_cycle K w fuel wm) s = (Done (cycle_next wm' fl), s', t) ->
  ∃ t3, t = t1 ++ t2 ++ t3 ∧ wm' = watermark_after v t3.
Proof.
  intros Hallocs Hindex.
  rewrite (run_watch_cycle_reads handle K w fuel wm v s s1 s2 allocs t1 t2
             Hallocs Hindex).
  pose proof (cycle_reaction_post handle K w v (spec_scan w v allocs) s2) as H.
  unfold reaction_post in H. unfold after.
  destruct (run handle (cycle_reaction K w v (spec_scan w v allocs)) s2)
    as [[o s3] t3]. cbn [fst snd]. intros [= -> -> <-].
  destruct H as (_ & -> & _). exists t3. by rewrite app_assoc.
Qed.

Lemma watch_cycle_watermark_witness :
  let allocs := [Scripted.alloc "a1" "cache" (Some false) 10] in
  let s := Scripted.cycle_script allocs 11 [Scripted.eval 8 6] 9 [] in
  let after_allocs := run Scripted.handle (getAllocs Scripted.watcher 3 7) s in
  let after_index :=
    run Scripted.handle (latestEvalIndex Scripted.watcher) after_allocs.1.2 in
  let cycle :=
    run Scripted.handle (watch_cycle Scripted.consts Scripted.watcher 3 7) s in
  after_allocs.1.1 = Done (allocs, None) /\
  after_index.1.1 = Done (8, None) /\
  cycle.1.1 = Done (cycle_next 30 (spec_scan Scripted.watcher 8 allocs)) /\
  ∃ t3, cycle.2 = after_allocs.2 ++ after_index.2 ++ t3 ∧
        30 = watermark_after 8 t3.
Proof.
  intros allocs s after_allocs after_index cycle.
  split; [reflexivity|]. split; [reflexivity|]. split; [reflexivity|].
  exact (watch_cycle_watermark Scripted.handle Scripted.consts
           Scripted.watcher 3 7 8 30 s after_allocs.1.2 after_index.1.2
           cycle.1.2 allocs after_allocs.2 after_index.2 cycle.2
           (spec_scan Scripted.watcher 8 allocs) eq_refl eq_refl eq_refl).
Defined.

(** C4 as the spec has it fails: a cycle entered with [latestEval] at 7 in
    which the most recent evaluation has snapshot index 3 leaves 3 in
    [latestEval]. *)
Lemma watch_cycle_lowers_watermark :
  ¬ (∀ (World : Type) (handle : forall c : Call, World -> Resp c * World)
       (K : Constants) (w : deploymentWatcher) (fuel : nat) (wm wm' : N)
       (s s' : World) (t : list Event) (fl : scan_flags),
       run handle (watch_cycle K w fuel wm) s
         = (Done (cycle_next wm' fl), s', t) ->
       wm <= wm').
Proof.
  intros H.
  pose (s := Scripted.cycle_script [] 8 [Scripted.eval 3 2] 9 []).
  specialize (H _ Scripted.handle Scripted.consts Scripted.watcher 3%nat 7 3
                s _ _ no_flags eq_refl).
  lia.
Qed.

(** The same happens when the read of the latest evaluation index fails
    with an error other than cancellation: the cycle goes on with 0. *)
Example watch_cycle_zeroes_watermark_on_error :
  let s := Scripted.with_writes
             (Scripted.reads []
                [({| ALR_Allocations := []; ALR_Index := 8 |}, None)]
                [(zero_JobEvaluationsResponse, Some (errors_New "no leader"))]
                [])
             [] [] in
  (run Scripted.handle (watch_cycle Scripted.consts Scripted.watcher 3 7) s).1.1
  = Done (cycle_next 0 no_flags).
Proof. reflexivity. Qed.

(** ** The nil stable job in the watch loop *)

(** C3 (the code fails the claim): in a cycle whose scan sets the failure
    and the rollback flag, a lookup that finds no stable version, and
    likewise a lookup that fails and is logged, leaves a nil job whose
    version the loop then reads: the cycle panics and no status-update write
    is made. *)
Theorem watch_cycle_nil_stable_job_panics :
  let allocs := [Scripted.alloc "a1" "web" (Some false) 10] in
  let none_stable :=
    Scripted.cycle_script allocs 11 [] 5
      [({| JVR_Versions := [Scripted.job 2 false; Scripted.job 1 false] |},
        None)] in
  let lookup_fails :=
    Scripted.cycle_script allocs 11 [] 5
      [(zero_JobVersionsResponse, Some (errors_New "no leader"))] in
  let cycle s :=
    run Scripted.handle (watch_cycle Scripted.consts Scripted.watcher 3 5) s in
  spec_scan Scripted.watcher 5 allocs
    = {| createEval_flag := true; failDeployment_flag := true;
         rollback_flag := true |} /\
  (cycle none_stable).1.1 = Panicked nil_dereference /\
  status_writes (cycle none_stable).2 = [] /\
  (cycle lookup_fails).1.1 = Panicked nil_dereference /\
  status_writes (cycle lookup_fails).2 = [] /\
  last (cycle lookup_fails).2 =
    Some (Ev (logger_Printf
                "[ERR] nomad.deployment_watcher: failed to lookup latest stable job for %q: %v"
                [arg_string "example"; arg_error (errors_New "no leader")]) tt).
Proof. repeat split. Qed.

(** The same in any environment: once the failure and the rollback flag are
    set, a lookup that yields no job ends the cycle in the panic, before any
    write. *)
Lemma cycle_reaction_panics_without_stable_job {World : Type}
    (handle : forall c : Call, World -> Resp c * World)
    (K : Constants) (w : deploymentWatcher) (v : N) (fl : scan_flags)
    (s : World) (err : option error) :
  failDeployment_flag fl = true ->
  rollback_flag fl = true ->
  (run handle (latestStableJob w) s).1.1 = Done (None, err) ->
  let res := run handle (cycle_reaction K w v fl) s in
  res.1.1 = Panicked nil_dereference ∧ status_writes res.2 = [].
Proof.
  intros Hfail Hroll. unfold cycle_reaction, latestStableJob.
  rewrite Hfail, Hroll. cbn.
  destruct (handle (GetJobVersions _ _) s) as [[vr [e|]] s1]; cbn.
  - intros _. by destruct (handle (logger_Printf _ _) s1).
  - destruct (find Job_Stable (JVR_Versions vr)); cbn; [discriminate|done].
Qed.

(** ** The evaluation batcher *)

Section BatcherFacts.
Context {World : Type}.
Variable ext : forall c : Call, World -> Resp c * World.
Variable K : Constants.
Variable w : deploymentWatcher.

(** createEvalBatched in full: it reads the field under the mutex and,
    when the field is clear, starts the closure; it stores nothing. *)
Lemma trigger_eq (m : Machine.state) :
  Machine.trigger ext K w m =
  let lock := Ev l_Lock tt in
  let unlock := Ev l_Unlock tt in
  if Machine.outstandingBatch m then
    {| Machine.clock := Machine.clock m;
       Machine.outstandingBatch := true;
       Machine.mutex_held := false;
       Machine.goroutines := Machine.goroutines m;
       Machine.world := Machine.world m;
       Machine.trace :=
         ((Machine.trace m ++ [lock]) ++ [Ev load_outstandingBatch true])
         ++ [unlock] |}
  else
    {| Machine.clock := Machine.clock m;
       Machine.outstandingBatch := false;
       Machine.mutex_held := false;
       Machine.goroutines :=
         Machine.goroutines m ++ [(Machine.clock m, batch_closure K w)];
       Machine.world := Machine.world m;
       Machine.trace :=
         (((Machine.trace m ++ [lock]) ++ [Ev load_outstandingBatch false])
          ++ [Ev (go go_batch) tt]) ++ [unlock] |}.
Proof.
  destruct m as [clk [|] held gs s t]; reflexivity.
Qed.

(** A request for a batched evaluation leaves [outstandingBatch] as it
    found it. *)
Lemma trigger_keeps_flag (m : Machine.state) :
  Machine.outstandingBatch (Machine.trigger ext K w m)
  = Machine.outstandingBatch m.
Proof. rewrite trigger_eq. by destruct (Machine.outstandingBatch m). Qed.

Lemma never_marks_batch_closure : Machine.never_marks (batch_closure K w).
Proof.
  unfold batch_closure, createEval, getEval. cbn.
  do 6 (constructor; [discriminate|]; intros ?).
  match goal with r : Resp (createEvaluation _) |- _ =>
    destruct r as [i [e|]] end; cbn;
    repeat (constructor; [discriminate|]; intros ?); constructor.
Qed.

Lemma answer_unmarked (c : Call) (m : Machine.state) :
  c ≠ store_outstandingBatch true ->
  Machine.unmarked m ->
  Machine.unmarked (Machine.handle ext K w c m).2.
Proof.
  intros Hc [Hflag Hgs]. unfold Machine.handle.
  destruct c; cbn;
    try (destruct (ext _ (Machine.world m)) as [r s]; cbn);
    try (split; [assumption|assumption]).
  - by destruct b.
  - split; [done|]. apply Forall_app. split; [done|].
    apply Forall_singleton. destruct g. apply never_marks_batch_closure.
Qed.

Lemma run_goroutine_unmarked (p : Prog unit) :
  Machine.never_marks p ->
  ∀ m, Machine.unmarked m ->
       Machine.unmarked (Machine.run_goroutine ext K w p m).
Proof.
  induction 1 as [a|msg| |c k Hc Hk IH]; intros m Hm; try done.
  cbn [Machine.run_goroutine].
  pose proof (answer_unmarked c m Hc Hm) as Hm'.
  destruct (Machine.handle ext K w c m) as [r m1]. cbn [snd] in Hm'.
  destruct (Machine.sleep_of c) as [dur|]; [|by apply IH].
  destruct Hm' as [Hflag Hgs]. split; [done|]. cbn.
  apply Forall_app. split; [done|]. apply Forall_singleton. apply Hk.
Qed.

Lemma perform_unmarked (a : Machine.action) (m : Machine.state) :
  Machine.unmarked m -> Machine.unmarked (Machine.perform ext K w a m).
Proof.
  intros Hm. destruct a as [|dt|i]; cbn [Machine.perform].
  - apply run_goroutine_unmarked; [|done].
    unfold createEvalBatched, call. cbn [bind].
    constructor; [discriminate|]. intros _.
    constructor; [discriminate|]. intros [|]; cbn [bind];
      repeat (constructor; [discriminate|]; intros ?); constructor.
  - done.
  - unfold Machine.resume.
    destruct (Machine.goroutines m !! i) as [[ready p]|] eqn:Hi; [|done].
    destruct (ready <=? Machine.clock m)%Z; [|done].
    destruct Hm as [Hflag Hgs].
    apply run_goroutine_unmarked.
    + eapply Forall_lookup_1 in Hgs; [|exact Hi]. done.
    + split; [done|]. cbn. by apply Forall_delete.
Qed.

Lemma step_perform (m m' : Machine.state) :
  Machine.step ext K w m m' ->
  ∃ a, m' = Machine.perform ext K w a m.
Proof.
  destruct 1 as [m|m dt _|m i];
    [by exists Machine.Trigger|by exists (Machine.Tick dt)
    |by exists (Machine.Resume i)].
Qed.

(** On a watcher that starts with the field clear, [outstandingBatch] is
    clear in every state the machine reaches: no code path stores [true]. *)
Lemma outstandingBatch_never_set (s : World) (m : Machine.state) :
  rtc (Machine.step ext K w) (Machine.init s) m ->
  Machine.outstandingBatch m = false.
Proof.
  intros Hreach.
  assert (Machine.unmarked m) as [H _]; [|done].
  revert m Hreach. apply rtc_ind_r.
  - split; [done|]. constructor.
  - intros m m' _ Hstep Hm. destruct (step_perform _ _ Hstep) as [a ->].
    by apply perform_unmarked.
Qed.

(** So every request for a batched evaluation, in every reachable state,
    starts one more closure. *)
Lemma trigger_always_spawns (s : World) (m : Machine.state) :
  rtc (Machine.step ext K w) (Machine.init s) m ->
  Machine.goroutines (Machine.trigger ext K w m)
  = Machine.goroutines m ++ [(Machine.clock m, batch_closure K w)].
Proof.
  intros Hreach. rewrite trigger_eq.
  by rewrite (outstandingBatch_never_set s m Hreach).
Qed.


End BatcherFacts.

(** C1 (the code fails the claim): on a fresh watcher, a first request for a
    batched evaluation starts the deferred closure but leaves
    [outstandingBatch] clear, so a second request 0.4 s later, inside the
    same one-second window, starts a second closure: two batched
    evaluation-creations are pending at once, and once the window is over
    two evaluation-creation writes are made. *)
Theorem createEvalBatched_twice_in_window :
  let run_actions :=
    Machine.performs Scripted.handle Scripted.consts Scripted.watcher in
  let first :=
    run_actions [Machine.Trigger; Machine.Resume 0] Scripted.fresh_watcher in
  let both := run_actions Scripted.two_triggers Scripted.fresh_watcher in
  let later := run_actions Scripted.window_over both in
  Machine.outstandingBatch first = false /\
  length (Machine.goroutines first) = 1%nat /\
  (Machine.clock both < evalBatchPeriod)%Z /\
  length (Machine.goroutines both) = 2%nat /\
  length (Machine.eval_writes (Machine.trace both)) = 0%nat /\
  length (Machine.eval_writes (Machine.trace later)) = 2%nat.
Proof. repeat split. Qed.

(** ** The watch loop over several cycles *)

(** Over the loop's lifetime the allocation queries are made at minimum
    index 0, then 30 (the index the failure write returned), then 8 (the
    snapshot index read in the second cycle). *)
Example watch_queries_over_three_cycles :
  let result :=
    run Scripted.handle (watch Scripted.consts Scripted.watcher 5 3)
      Scripted.three_cycles in
  result.1.1 = Done tt /\
  allocation_queries result.2 = [0; 30; 8] /\
  length (status_writes result.2) = 1%nat.
Proof. repeat split. Qed.

(** * Further properties of the code *)

(** ** newDeploymentWatcher *)

Lemma autorevert_fold_dom (tgs : list TaskGroup) :
  ∀ m : gmap string bool,
    dom (foldl (fun m tg =>
                  let autorevert :=
                    match TaskGroup_Update tg with
                    | Some u => AutoRevert u
                    | None => false
                    end in
                  <[TaskGroup_Name tg := autorevert]> m) m tgs)
    = dom m ∪ list_to_set (TaskGroup_Name <$> tgs).
Proof.
  induction tgs as [|tg rest IH]; intros m;
    cbn [foldl fmap list_fmap list_to_set].
  - by rewrite (right_id_L ∅ (∪)).
  - rewrite IH, dom_insert_L.
    by rewrite (comm_L (∪) {[TaskGroup_Name tg]} (dom m)), (assoc_L (∪)).
Qed.

Lemma autorevert_fold_lookup (tgs : list TaskGroup) (k : string) :
  ∀ m : gmap string bool,
    k ∉ TaskGroup_Name <$> tgs ->
    foldl (fun m tg =>
             let autorevert :=
               match TaskGroup_Update tg with
               | Some u => AutoRevert u
               | None => false
               end in
             <[TaskGroup_Name tg := autorevert]> m) m tgs !! k
    = m !! k.
Proof.
  induction tgs as [|tg rest IH]; intros m Hk; cbn [foldl]; [done|].
  cbn [fmap list_fmap] in Hk. apply not_elem_of_cons in Hk as [Hne Hk].
  rewrite IH by done. by rewrite lookup_insert_ne.
Qed.

(** The autorevert map has exactly one entry per task-group name of the
    job. *)
Theorem newDeploymentWatcher_autorevert_dom (d : Deployment) (j : Job) :
  dom (autorevert (newDeploymentWatcher d j))
  = list_to_set (TaskGroup_Name <$> Job_TaskGroups j).
Proof.
  unfold newDeploymentWatcher. cbn [autorevert].
  by rewrite autorevert_fold_dom, dom_empty_L, (left_id_L ∅ (∪)).
Qed.

(** For a job whose task groups have different names, the map gives each
    group the AutoRevert flag of its update policy, false when the group has
    no update policy, and reads false for a name that is not a group of the
    job. *)
Theorem newDeploymentWatcher_autorevert_lookup (d : Deployment) (j : Job) :
  NoDup (TaskGroup_Name <$> Job_TaskGroups j) ->
  (∀ tg, tg ∈ Job_TaskGroups j ->
         map_index (autorevert (newDeploymentWatcher d j)) (TaskGroup_Name tg)
         = group_autorevert tg) ∧
  (∀ name, name ∉ TaskGroup_Name <$> Job_TaskGroups j ->
           map_index (autorevert (newDeploymentWatcher d j)) name = false).
Proof.
  intros Hnd. unfold newDeploymentWatcher, map_index. cbn [autorevert]. split.
  - generalize (∅ : gmap string bool).
    induction (Job_TaskGroups j) as [|tg0 rest IH]; intros m tg Hin.
    { by apply elem_of_nil in Hin. }
    cbn [fmap list_fmap] in Hnd. apply NoDup_cons in Hnd as [Hfresh Hnd].
    cbn [foldl]. apply elem_of_cons in Hin as [->|Hin].
    + rewrite autorevert_fold_lookup by done.
      by rewrite lookup_insert_eq.
    + by apply IH.
  - intros name Hname. rewrite autorevert_fold_lookup by done.
    by rewrite lookup_empty.
Qed.

Lemma newDeploymentWatcher_autorevert_lookup_witness :
  let w := newDeploymentWatcher Scripted.deployment Scripted.three_groups in
  NoDup (TaskGroup_Name <$> Job_TaskGroups Scripted.three_groups) /\
  map_index (autorevert w) "web" = true /\
  map_index (autorevert w) "cache" = false /\
  map_index (autorevert w) "db" = false /\
  map_index (autorevert w) "batch" = false.
Proof.
  intros w.
  assert (NoDup (TaskGroup_Name <$> Job_TaskGroups Scripted.three_groups))
    as Hnd by (apply (bool_decide_unpack _); by vm_compute).
  split; [exact Hnd|].
  destruct (newDeploymentWatcher_autorevert_lookup Scripted.deployment
              Scripted.three_groups Hnd) as [Hin Hout].
  split; [|split; [|split]].
  - apply (Hin {| TaskGroup_Name := "web";
                  TaskGroup_Update := Some {| AutoRevert := true |} |}).
    repeat constructor.
  - apply (Hin {| TaskGroup_Name := "cache"; TaskGroup_Update := None |}).
    repeat constructor.
  - apply (Hin {| TaskGroup_Name := "db";
                  TaskGroup_Update := Some {| AutoRevert := false |} |}).
    repeat constructor.
  - apply Hout. apply (bool_decide_unpack _). by vm_compute.
Defined.

(** ** latestStableJob *)

Lemma find_first (A : Type) (f : A -> bool) (l : list A) :
  match find f l with
  | Some x =>
      ∃ before after, l = before ++ x :: after ∧ f x = true ∧
                      Forall (fun y => f y = false) before
  | None => Forall (fun y => f y = false) l
  end.
Proof.
  induction l as [|a l IH]; cbn; [constructor|].
  destruct (f a) eqn:Hfa.
  - exists [], l. by repeat split.
  - destruct (find f l) as [x|].
    + destruct IH as (before & after & -> & Hx & Hbefore).
      exists (a :: before), after. repeat split; [done|by constructor].
    + by constructor.
Qed.

(** latestStableJob makes one lookup and returns the first version flagged
    stable in the order the store lists them, whatever the version numbers;
    it returns no job when no version is flagged stable, and no job together
    with the error when the lookup fails. *)
Theorem latestStableJob_first_stable {World : Type}
    (handle : forall c : Call, World -> Resp c * World)
    (w : deploymentWatcher) (s : World) :
  let args := {| JSR_JobID := Deployment_JobID (d w) |} in
  let '((vr, err), s1) :=
    handle (GetJobVersions args zero_JobVersionsResponse) s in
  ∃ job, run handle (latestStableJob w) s =
           (Done (job, err), s1,
            [Ev (GetJobVersions args zero_JobVersionsResponse) (vr, err)]) ∧
    match err, job with
    | Some _, Some _ => False
    | Some _, None => True
    | None, Some x =>
        ∃ before after, JVR_Versions vr = before ++ x :: after ∧
                        Job_Stable x = true ∧
                        Forall (fun y => Job_Stable y = false) before
    | None, None => Forall (fun y => Job_Stable y = false) (JVR_Versions vr)
    end.
Proof.
  intros args. rewrite run_latestStableJob. fold args.
  destruct (handle (GetJobVersions args zero_JobVersionsResponse) s)
    as [[vr [e|]] s1].
  - by exists None.
  - exists (find Job_Stable (JVR_Versions vr)). split; [done|].
    apply find_first.
Qed.

(** A job list that has a stable version 1 ahead of a stable version 5
    yields version 1. *)
Example latestStableJob_not_highest :
  (run Scripted.handle (latestStableJob Scripted.watcher)
     (Scripted.reads [] [] []
        [({| JVR_Versions := [Scripted.job 7 false; Scripted.job 1 true;
                              Scripted.job 5 true] |}, None)])).1.1
  = Done (Some (Scripted.job 1 true), None).
Proof. reflexivity. Qed.

(** ** latestEvalIndex: the error paths *)

(** When the limiter wait fails, latestEvalIndex makes no query and returns
    index 0 with the error of the wait; when the query fails it returns
    index 0 with the error of the query.  It makes one wait and at most one
    query, and never panics. *)
Theorem latestEvalIndex_errors {World : Type}
    (handle : forall c : Call, World -> Resp c * World)
    (w : deploymentWatcher) (s : World) :
  let args := {| JSR_JobID := Deployment_JobID (d w) |} in
  let '(waited, s1) := handle queryLimiter_Wait s in
  let '((resp, err), s2) :=
    handle (Evaluations args zero_JobEvaluationsResponse) s1 in
  let wait := Ev queryLimiter_Wait waited in
  let query := Ev (Evaluations args zero_JobEvaluationsResponse) (resp, err) in
  match waited, err with
  | Some e, _ =>
      run handle (latestEvalIndex w) s = (Done (0, Some e), s1, [wait])
  | None, Some e =>
      run handle (latestEvalIndex w) s = (Done (0, Some e), s2, [wait; query])
  | None, None =>
      ∃ index, run handle (latestEvalIndex w) s
               = (Done (index, None), s2, [wait; query])
  end.
Proof.
  intros args. unfold latestEvalIndex. fold args. cbn [run bind call].
  destruct (handle queryLimiter_Wait s) as [[e|] s1].
  { by destruct (handle (Evaluations args zero_JobEvaluationsResponse) s1)
      as [[resp err] s2]. }
  cbn [run bind call].
  destruct (handle (Evaluations args zero_JobEvaluationsResponse) s1)
    as [[resp [e|]] s2]; [done|].
  destruct (JER_Evaluations resp) as [|e rest]; cbn; [by eexists|].
  destruct (negb _); by eexists.
Qed.

(** ** SetAllocHealth: the other paths *)

(** A request that reports no unhealthy allocation re-fetches nothing and
    looks nothing up: SetAllocHealth generates an evaluation and makes the
    allocation-health write with no status update and no job; the response
    carries the evaluation's id and the write's index when the write
    succeeds, and is returned unchanged with the error when it fails. *)
Theorem SetAllocHealth_healthy_only {World : Type}
    (handle : forall c : Call, World -> Resp c * World)
    (K : Constants) (w : deploymentWatcher)
    (req : DeploymentAllocHealthRequest) (resp : DeploymentUpdateResponse)
    (s : World) :
  UnhealthyAllocationIDs req = [] ->
  let '(id, s1) := handle GenerateUUID s in
  let areq := {| ADAH_Request := req;
                 ADAH_Eval := evaluation_of K w id;
                 ADAH_DeploymentUpdate := None;
                 ADAH_Job := None |} in
  let '(r, s2) := handle (upsertDeploymentAllocHealth areq) s1 in
  run handle (SetAllocHealth K w req resp) s =
    (Done (response_of resp id r), s2,
     [Ev GenerateUUID id; Ev (upsertDeploymentAllocHealth areq) r]).
Proof.
  intros Hnil.
  pose proof (run_SetAllocHealth_healthy handle K w req resp s Hnil) as H.
  unfold health_commit in H. destruct (handle GenerateUUID s) as [id s1].
  cbv zeta.
  by destruct (handle (upsertDeploymentAllocHealth _) s1) as [r s2].
Qed.

Lemma SetAllocHealth_healthy_only_witness :
  let req := {| DAH_DeploymentID := "d1"; HealthyAllocationIDs := ["a1"; "a2"];
                UnhealthyAllocationIDs := [] |} in
  let areq := {| ADAH_Request := req;
                 ADAH_Eval := evaluation_of Scripted.consts Scripted.watcher "u1";
                 ADAH_DeploymentUpdate := None;
                 ADAH_Job := None |} in
  UnhealthyAllocationIDs req = [] /\
  run Scripted.handle
    (SetAllocHealth Scripted.consts Scripted.watcher req Scripted.no_response)
    (Scripted.health_script [])
  = (Done ({| EvalID := "u1"; EvalCreateIndex := 20;
              DeploymentModifyIndex := 20 |}, None),
     Scripted.with_writes (Scripted.health_script []) [] [],
     [Ev GenerateUUID "u1"; Ev (upsertDeploymentAllocHealth areq) (20, None)]).
Proof.
  intros req areq. split; [reflexivity|].
  exact (SetAllocHealth_healthy_only Scripted.handle Scripted.consts
           Scripted.watcher req Scripted.no_response
           (Scripted.health_script []) eq_refl).
Defined.

(** When the re-fetch of the allocations fails, SetAllocHealth returns the
    error with the response unchanged, and makes no lookup and no write. *)
Theorem SetAllocHealth_refetch_error {World : Type}
    (handle : forall c : Call, World -> Resp c * World)
    (K : Constants) (w : deploymentWatcher)
    (req : DeploymentAllocHealthRequest) (resp : DeploymentUpdateResponse)
    (s s1 : World) (aresp : AllocListResponse) (e : error) :
  let args := {| DSR_DeploymentID := DAH_DeploymentID req;
                 DSR_MinQueryIndex := 0 |} in
  UnhealthyAllocationIDs req ≠ [] ->
  handle (Allocations args zero_AllocListResponse) s = ((aresp, Some e), s1) ->
  run handle (SetAllocHealth K w req resp) s =
  (Done (resp, Some e), s1,
   [Ev (Allocations args zero_AllocListResponse) (aresp, Some e)]).
Proof. apply run_SetAllocHealth_refetch_error. Qed.

Lemma SetAllocHealth_refetch_error_witness :
  let req := Scripted.report ["a2"] in
  let s := Scripted.with_writes
             (Scripted.reads []
                [(zero_AllocListResponse, Some (errors_New "no leader"))] [] [])
             [(20, None)] ["u1"] in
  let result :=
    run Scripted.handle
      (SetAllocHealth Scripted.consts Scripted.watcher req Scripted.no_response)
      s in
  UnhealthyAllocationIDs req ≠ [] /\
  result.1.1 = Done (Scripted.no_response, Some (errors_New "no leader")) /\
  health_writes result.2 = [] /\ version_lookups result.2 = [].
Proof.
  intros req s result.
  assert (UnhealthyAllocationIDs req ≠ []) as Hne by discriminate.
  split; [exact Hne|]. unfold result.
  rewrite (SetAllocHealth_refetch_error Scripted.handle Scripted.consts
             Scripted.watcher req Scripted.no_response s
             (Scripted.with_writes Scripted.empty [(20, None)] ["u1"])
             zero_AllocListResponse (errors_New "no leader") Hne eq_refl).
  repeat split.
Defined.

Lemma health_commit_post {World : Type}
    (handle : forall c : Call, World -> Resp c * World)
    (K : Constants) (w : deploymentWatcher)
    (req : DeploymentAllocHealthRequest) (resp : DeploymentUpdateResponse)
    (j : option Job) (u : option DeploymentStatusUpdate) (s : World)
    (t0 : list Event) :
  health_writes t0 = [] -> status_writes t0 = [] ->
  Machine.eval_writes t0 = [] ->
  let res := after t0 (health_commit handle K w req resp j u s) in
  length (health_writes res.2) = 1%nat ∧
  version_lookups res.2 = version_lookups t0 ∧
  status_writes res.2 = [] ∧ Machine.eval_writes res.2 = [] ∧
  match res.1.1 with
  | Done (resp', Some _) => resp' = resp
  | Done (resp', None) =>
      ∃ areq, health_writes res.2 = [areq] ∧ ADAH_Request areq = req ∧
              EvalID resp' = Eval_ID (ADAH_Eval areq) ∧
              EvalCreateIndex resp' = DeploymentModifyIndex resp'
  | _ => False
  end.
Proof.
  intros Hh Hs He. unfold after, health_commit.
  destruct (handle GenerateUUID s) as [id s1].
  destruct (handle (upsertDeploymentAllocHealth _) s1) as [[i [e|]] s2];
    cbn [fst snd response_of].
  all: unfold health_writes, version_lookups, status_writes,
         Machine.eval_writes in *.
  all: rewrite !omap_app, ?Hh, ?Hs, ?He; cbn.
  all: rewrite ?app_nil_r; repeat split; try done.
  by eexists.
Qed.

(** In any environment SetAllocHealth makes at most one allocation-health
    write and at most one lookup of the job's versions, and no other write;
    a result with an error returns the caller's response unchanged; a result
    without an error follows exactly one write, which carries the request,
    and answers with the id of the evaluation sent in that write; a panic
    follows no write. *)
Theorem SetAllocHealth_at_most_one_write {World : Type}
    (handle : forall c : Call, World -> Resp c * World)
    (K : Constants) (w : deploymentWatcher)
    (req : DeploymentAllocHealthRequest) (resp : DeploymentUpdateResponse)
    (s : World) :
  let res := run handle (SetAllocHealth K w req resp) s in
  (length (health_writes res.2) <= 1)%nat ∧
  (length (version_lookups res.2) <= 1)%nat ∧
  status_writes res.2 = [] ∧ Machine.eval_writes res.2 = [] ∧
  match res.1.1 with
  | Done (resp', Some _) => resp' = resp
  | Done (resp', None) =>
      ∃ areq, health_writes res.2 = [areq] ∧ ADAH_Request areq = req ∧
              EvalID resp' = Eval_ID (ADAH_Eval areq) ∧
              EvalCreateIndex resp' = DeploymentModifyIndex resp'
  | Panicked _ => health_writes res.2 = []
  | Spinning => False
  end.
Proof.
  intros res. unfold res. clear res.
  destruct (decide (UnhealthyAllocationIDs req = [])) as [Hnil|Hne].
  { rewrite (run_SetAllocHealth_healthy handle K w req resp s Hnil).
    destruct (health_commit_post handle K w req resp None None s []
                eq_refl eq_refl eq_refl) as (H1 & H2 & H3 & H4 & H5).
    unfold after in *. cbn [app fst snd] in *.
    destruct (health_commit handle K w req resp None None s) as [[o s1] t].
    cbn [fst snd] in *. rewrite H1, H2. repeat split; try done; try (cbn; lia).
    by destruct o as [[resp' [e|]]| |]. }
  destruct (handle (Allocations {| DSR_DeploymentID := DAH_DeploymentID req;
                                   DSR_MinQueryIndex := 0 |}
                      zero_AllocListResponse) s)
    as [[aresp [e|]] s1] eqn:Hread.
  { rewrite (run_SetAllocHealth_refetch_error handle K w req resp s s1 aresp e
               Hne Hread). cbn. repeat split; lia. }
  rewrite (run_SetAllocHealth_unhealthy handle K w req resp s s1 aresp
             Hne Hread).
  destruct (find _ (ALR_Allocations aresp)).
  - destruct (handle (GetJobVersions _ _) s1) as [[vr [e|]] s2].
    { cbn. repeat split; lia. }
    destruct (find Job_Stable (JVR_Versions vr)) as [job|].
    2:{ cbn. repeat split; lia. }
    cbv zeta.
    match goal with |- context [after ?t0 (health_commit _ _ _ _ _ ?j ?u ?s0)] =>
      destruct (health_commit_post handle K w req resp j u s0 t0
                  eq_refl eq_refl eq_refl) as (H1 & H2 & H3 & H4 & H5);
      destruct (after t0 (health_commit handle K w req resp j u s0))
        as [[o s3] t] end.
    cbn [fst snd] in *. rewrite H1, H2. repeat split; try done; try (cbn; lia).
    by destruct o as [[resp' [e|]]| |].
  - match goal with |- context [after ?t0 (health_commit _ _ _ _ _ ?j ?u ?s0)] =>
      destruct (health_commit_post handle K w req resp j u s0 t0
                  eq_refl eq_refl eq_refl) as (H1 & H2 & H3 & H4 & H5);
      destruct (after t0 (health_commit handle K w req resp j u s0))
        as [[o s3] t] end.
    cbn [fst snd] in *. rewrite H1, H2. repeat split; try done; try (cbn; lia).
    by destruct o as [[resp' [e|]]| |].
Qed.

(** ** The reads of a cycle make no write *)

Lemma no_effects_app (t1 t2 : list Event) :
  no_effects t1 -> no_effects t2 -> no_effects (t1 ++ t2).
Proof.
  unfold no_effects, status_writes, health_writes, Machine.eval_writes,
    go_events.
  intros (H1 & H2 & H3 & H4) (H5 & H6 & H7 & H8).
  rewrite !omap_app, H1, H2, H3, H4, H5, H6, H7, H8. done.
Qed.

Lemma last_snoc_app (t0 : list Event) (e : Event) : last (t0 ++ [e]) = Some e.
Proof. by rewrite last_app. Qed.

Lemma rounds_no_effects index args r t r' :
  rounds index args r t r' -> no_effects t.
Proof.
  induction 1 as [|r r1 r' t Hle Hr IH]; [done|].
  destruct IH as (H1 & H2 & H3 & H4). by repeat split.
Qed.

Section ReadFacts.
Context {World : Type}.
Variable handle : forall c : Call, World -> Resp c * World.
Variable w : deploymentWatcher.

(** What the watch loop relies on when it calls getAllocs: a result, if
    there is one, comes with an empty list whenever it comes with an error,
    after a trace without effects, whose last call reported the
    cancellation if the error is [context.Canceled]. *)
Lemma getAllocs_result (fuel : nat) (index : N) (s s1 : World)
    (allocs : list AllocListStub) (err : option error) (t : list Event) :
  run handle (getAllocs w fuel index) s = (Done (allocs, err), s1, t) ->
  no_effects t ∧ log_lines t = [] ∧
  (err ≠ None -> allocs = []) ∧
  (is_canceled err = true -> ∃ e, last t = Some e ∧ reports_cancel e = true).
Proof.
  intros Hrun.
  pose proof (getAllocs_loop_post handle index
                {| DSR_DeploymentID := Deployment_ID (d w);
                   DSR_MinQueryIndex := index |}
                fuel zero_AllocListResponse s) as H.
  fold (getAllocs w fuel index) in H. rewrite Hrun in H. cbn in H.
  destruct err as [e|].
  - destruct H as (-> & t0 & r' & Hr & _ & Ht).
    pose proof (rounds_no_effects _ _ _ _ _ Hr) as Hquiet.
    assert (log_lines t0 = []) as Hlog.
    { clear -Hr. induction Hr; [done|]. done. }
    destruct Ht as [->|[r'' ->]].
    + split; [by apply no_effects_app|]. split.
      { unfold log_lines in *. by rewrite omap_app, Hlog. }
      split; [done|]. intros Hc. eexists. split; [apply last_snoc_app|].
      exact Hc.
    + split; [by apply no_effects_app|]. split.
      { unfold log_lines in *. by rewrite omap_app, Hlog. }
      split; [done|]. intros Hc. eexists. split.
      { change [Ev queryLimiter_Wait None; ?x]
          with ([Ev queryLimiter_Wait None] ++ [x]).
        rewrite app_assoc. apply last_snoc_app. }
      exact Hc.
  - destruct H as (r' & Hr & _ & _).
    split; [by eapply rounds_no_effects|]. split.
    { clear -Hr. induction Hr; [done|]. done. }
    split; [done|]. discriminate.
Qed.

Lemma getAllocs_never_panics (fuel : nat) (index : N) (s : World) msg :
  (run handle (getAllocs w fuel index) s).1.1 ≠ Panicked msg.
Proof.
  pose proof (getAllocs_loop_post handle index
                {| DSR_DeploymentID := Deployment_ID (d w);
                   DSR_MinQueryIndex := index |}
                fuel zero_AllocListResponse s) as H.
  fold (getAllocs w fuel index) in H.
  destruct (run handle (getAllocs w fuel index) s) as [[[a|m|] s1] t]; done.
Qed.

Lemma latestEvalIndex_result (s : World) :
  ∃ v err s1 t,
    run handle (latestEvalIndex w) s = (Done (v, err), s1, t) ∧
    no_effects t ∧ log_lines t = [] ∧
    (is_canceled err = true ->
     ∃ e, last t = Some e ∧ reports_cancel e = true).
Proof.
  unfold latestEvalIndex. cbn [run bind call].
  destruct (handle queryLimiter_Wait s) as [[e|] s1]; cbn [run bind call].
  { do 4 eexists. split; [done|]. repeat split. intros Hc. by eexists. }
  destruct (handle (Evaluations _ _) s1) as [[resp [e|]] s2]; cbn.
  { do 4 eexists. split; [done|]. repeat split. intros Hc. by eexists. }
  destruct (JER_Evaluations resp) as [|e rest]; cbn.
  { do 4 eexists. split; [done|]. by repeat split. }
  destruct (negb _); do 4 eexists; (split; [done|]); by repeat split.
Qed.

End ReadFacts.

(** ** createEvalBatched in any environment *)

Lemma run_createEvalBatched {World : Type}
    (handle : forall c : Call, World -> Resp c * World) (s : World) :
  let '(_, s1) := handle l_Lock s in
  let '(outstanding, s2) := handle load_outstandingBatch s1 in
  if (outstanding : bool) then
    let '(_, s3) := handle l_Unlock s2 in
    run handle createEvalBatched s =
      (Done tt, s3,
       [Ev l_Lock tt; Ev load_outstandingBatch true; Ev l_Unlock tt])
  else
    let '(_, s3) := handle (go go_batch) s2 in
    let '(_, s4) := handle l_Unlock s3 in
    run handle createEvalBatched s =
      (Done tt, s4,
       [Ev l_Lock tt; Ev load_outstandingBatch false; Ev (go go_batch) tt;
        Ev l_Unlock tt]).
Proof.
  unfold createEvalBatched. cbn [run bind call].
  destruct (handle l_Lock s) as [[] s1]. cbn [run bind call].
  destruct (handle load_outstandingBatch s1) as [[|] s2]; cbn [run bind call].
  - by destruct (handle l_Unlock s2) as [[] s3].
  - destruct (handle (go go_batch) s2) as [[] s3]. cbn [run].
    by destruct (handle l_Unlock s3) as [[] s4].
Qed.

(** createEvalBatched takes the mutex, reads [outstandingBatch], starts the
    closure exactly when the field reads false, and releases the mutex on
    both ways out; it stores nothing in the field and makes no write
    itself. *)
Theorem createEvalBatched_run {World : Type}
    (handle : forall c : Call, World -> Resp c * World) (s : World) :
  let '(_, s1) := handle l_Lock s in
  let '(outstanding, s2) := handle load_outstandingBatch s1 in
  if (outstanding : bool) then
    let '(_, s3) := handle l_Unlock s2 in
    run handle createEvalBatched s =
      (Done tt, s3,
       [Ev l_Lock tt; Ev load_outstandingBatch true; Ev l_Unlock tt])
  else
    let '(_, s3) := handle (go go_batch) s2 in
    let '(_, s4) := handle l_Unlock s3 in
    run handle createEvalBatched s =
      (Done tt, s4,
       [Ev l_Lock tt; Ev load_outstandingBatch false; Ev (go go_batch) tt;
        Ev l_Unlock tt]).
Proof. apply run_createEvalBatched. Qed.

(** ** The paths of a cycle *)

Section CyclePaths.
Context {World : Type}.
Variable handle : forall c : Call, World -> Resp c * World.
Variable K : Constants.
Variable w : deploymentWatcher.

Lemma run_status_commit (v : N) (fl : scan_flags) (desc : string)
    (j : option Job) (s : World) :
  run handle
    (let* e := getEval K w in
     let u := getDeploymentStatusUpdate w (DeploymentStatusFailed K) desc in
     let* (index, err) := call (upsertDeploymentStatusUpdate u (Some e) j) in
     match err with
     | Some _ =>
         log_if_error
           "[ERR] nomad.deployment_watcher: failed to update deployment %q status: %v"
           (Deployment_ID (d w)) err ;;
         Ret (cycle_next v fl)
     | None => Ret (cycle_next index fl)
     end)%prog s
  = status_commit handle K w v fl desc j s.
Proof.
  unfold status_commit, getEval, getDeploymentStatusUpdate, failed_update.
  cbn [run bind call]. destruct (handle GenerateUUID s) as [id s1].
  fold (evaluation_of K w id). cbn [run bind call].
  destruct (handle (upsertDeploymentStatusUpdate _ _ j) s1)
    as [[i [e|]] s2]; cbn [run bind call log_if_error snd fst]; [|done].
  by destruct (handle (logger_Printf _ _) s2) as [u s3].
Qed.

Lemma run_reaction_idle (v : N) (fl : scan_flags) (s : World) :
  failDeployment_flag fl = false -> createEval_flag fl = false ->
  run handle (cycle_reaction K w v fl) s = (Done (cycle_next v fl), s, []).
Proof. intros Hf Hc. unfold cycle_reaction. by rewrite Hf, Hc. Qed.

Lemma run_reaction_batch (v : N) (fl : scan_flags) (s : World) :
  failDeployment_flag fl = false -> createEval_flag fl = true ->
  run handle (cycle_reaction K w v fl) s =
  (Done (cycle_next v fl), (run handle createEvalBatched s).1.2,
   (run handle createEvalBatched s).2).
Proof.
  intros Hf Hc. unfold cycle_reaction. rewrite Hf, Hc. rewrite run_bind.
  pose proof (run_createEvalBatched handle s) as H.
  destruct (handle l_Lock s) as [[] s1].
  destruct (handle load_outstandingBatch s1) as [[|] s2].
  - destruct (handle l_Unlock s2) as [[] s3]. by rewrite H.
  - destruct (handle (go go_batch) s2) as [[] s3].
    destruct (handle l_Unlock s3) as [[] s4]. by rewrite H.
Qed.

Lemma run_reaction_fail (v : N) (fl : scan_flags) (s : World) :
  failDeployment_flag fl = true -> rollback_flag fl = false ->
  run handle (cycle_reaction K w v fl) s =
  status_commit handle K w v fl
    (DeploymentStatusDescriptionFailedAllocations K) None s.
Proof.
  intros Hf Hr. unfold cycle_reaction. rewrite Hf, Hr. cbn [bind].
  apply run_status_commit.
Qed.

Lemma run_reaction_rollback (v : N) (fl : scan_flags) (s s1 : World)
    (vr : JobVersionsResponse) (job : Job) :
  let args := {| JSR_JobID := Deployment_JobID (d w) |} in
  failDeployment_flag fl = true -> rollback_flag fl = true ->
  handle (GetJobVersions args zero_JobVersionsResponse) s = ((vr, None), s1) ->
  find Job_Stable (JVR_Versions vr) = Some job ->
  run handle (cycle_reaction K w v fl) s =
  after [Ev (GetJobVersions args zero_JobVersionsResponse) (vr, None)]
    (status_commit handle K w v fl
       (Sprintf_rollback (DeploymentStatusDescriptionFailedAllocations K)
          (Job_Version job)) (Some job) s1).
Proof.
  intros args Hf Hr Hlookup Hstable. unfold cycle_reaction.
  rewrite Hf, Hr. rewrite run_bind, run_bind, run_latestStableJob.
  fold args. rewrite Hlookup, Hstable. cbn [log_if_error run bind app].
  rewrite run_status_commit. unfold after.
  by destruct (status_commit _ _ _ _ _ _ _ _) as [[o s2] t].
Qed.

End CyclePaths.

Section CycleExit.
Context {World : Type}.
Variable handle : forall c : Call, World -> Resp c * World.
Variable K : Constants.
Variable w : deploymentWatcher.

Lemma reaction_never_returns (v : N) (fl : scan_flags) (s : World) :
  (run handle (cycle_reaction K w v fl) s).1.1 ≠ Done cycle_return.
Proof.
  pose proof (cycle_reaction_post handle K w v fl s) as H.
  unfold reaction_post in H.
  by destruct (run handle (cycle_reaction K w v fl) s)
    as [[[[|wm' fl']|msg|] s1] t].
Qed.

Lemma run_log_then_reaction (format subject : string) (err : option error)
    (v : N) (fl : scan_flags) (s : World) :
  (run handle (log_if_error format subject err ;; cycle_reaction K w v fl) s).1.1
  ≠ Done cycle_return.
Proof.
  destruct err as [e|]; cbn [log_if_error bind call run].
  - destruct (handle (logger_Printf _ _) s) as [u s1].
    pose proof (reaction_never_returns v fl s1) as H.
    by destruct (run handle (cycle_reaction K w v fl) s1) as [[o s2] t].
  - apply reaction_never_returns.
Qed.

(** The second read of a cycle and what follows it: the cycle leaves the
    loop only when the read reports the cancellation, as its last call and
    without effects. *)
Lemma cycle_tail_exit (allocs : list AllocListStub) (s s' : World)
    (t : list Event) :
  run handle
    (let* (latestEval, err) := latestEvalIndex w in
     match err with
     | Some context_Canceled => Ret cycle_return
     | _ =>
         log_if_error
           "[ERR] nomad.deployment_watcher: failed to determine last evaluation index for job %q: %v"
           (Deployment_JobID (d w)) err ;;
         cycle_reaction K w latestEval (scan_allocs w latestEval allocs no_flags)
     end)%prog s = (Done cycle_return, s', t) ->
  no_effects t ∧ ∃ e, last t = Some e ∧ reports_cancel e = true.
Proof.
  rewrite run_bind.
  destruct (latestEvalIndex_result handle w s)
    as (v & err & s1 & t1 & -> & Hq & _ & Hc).
  destruct err as [[|msg]|].
  - cbn [run]. intros [= <- <-]. rewrite app_nil_r. split; [done|].
    by apply Hc.
  - match goal with |- context [run handle ?p s1] =>
      pose proof (run_log_then_reaction
                    "[ERR] nomad.deployment_watcher: failed to determine last evaluation index for job %q: %v"
                    (Deployment_JobID (d w)) (Some (errors_New msg)) v
                    (scan_allocs w v allocs no_flags) s1) as H;
      destruct (run handle p s1) as [[o s2] t2] end.
    cbn [fst] in H. intros [= -> _ _]. done.
  - match goal with |- context [run handle ?p s1] =>
      pose proof (run_log_then_reaction
                    "[ERR] nomad.deployment_watcher: failed to determine last evaluation index for job %q: %v"
                    (Deployment_JobID (d w)) None v
                    (scan_allocs w v allocs no_flags) s1) as H;
      destruct (run handle p s1) as [[o s2] t2] end.
    cbn [fst] in H. intros [= -> _ _]. done.
Qed.

Lemma watch_cycle_exit (fuel : nat) (wm : N) (s s' : World) (t : list Event) :
  run handle (watch_cycle K w fuel wm) s = (Done cycle_return, s', t) ->
  no_effects t ∧ ∃ e, last t = Some e ∧ reports_cancel e = true.
Proof.
  unfold watch_cycle. rewrite run_bind.
  destruct (run handle (getAllocs w fuel wm) s) as [[o1 s1] t1] eqn:Hg.
  destruct o1 as [[allocs err]|msg|]; [|discriminate..].
  destruct (getAllocs_result handle w fuel wm s s1 allocs err t1 Hg)
    as (Hq1 & _ & _ & Hc1).
  destruct err as [[|msg]|].
  - cbn [run]. intros [= <- <-]. rewrite app_nil_r. split; [done|].
    by apply Hc1.
  - cbn [log_if_error]. rewrite run_bind. unfold call at 1. cbn [run].
    destruct (handle (logger_Printf _ _) s1) as [u s2].
    match goal with |- context [run handle ?p s2] =>
      pose proof (cycle_tail_exit allocs s2) as Htail;
      destruct (run handle p s2) as [[o s3] t3] end.
    intros [= -> <- <-].
    destruct (Htail s3 t3 eq_refl) as (Hq3 & e & Hlast & Hcancel).
    split.
    + apply no_effects_app; [done|]. by apply (no_effects_app [_]).
    + exists e. split; [|done].
      change (?x :: t3) with ([x] ++ t3). by rewrite !last_app, Hlast.
  - cbn [log_if_error bind].
    match goal with |- context [run handle ?p s1] =>
      pose proof (cycle_tail_exit allocs s1) as Htail;
      destruct (run handle p s1) as [[o s3] t3] end.
    intros [= -> <- <-].
    destruct (Htail s3 t3 eq_refl) as (Hq3 & e & Hlast & Hcancel).
    split; [by apply no_effects_app|].
    exists e. split; [|done]. by rewrite last_app, Hlast.
Qed.

End CycleExit.

Lemma spec_scan_none (w : deploymentWatcher) (v : N)
    (allocs : list AllocListStub) :
  (∀ a ds, a ∈ allocs -> Alloc_DeploymentStatus a = Some ds ->
           ModifyIndex ds <= v) ->
  spec_scan w v allocs = no_flags.
Proof.
  intros Hold.
  assert (∀ a, a ∈ allocs -> fresh v a = false) as Hfresh.
  { intros a Ha. unfold fresh.
    destruct (Alloc_DeploymentStatus a) as [ds|] eqn:Hds; [|done].
    apply N.ltb_ge. by eapply Hold. }
  clear Hold. unfold spec_scan, no_flags.
  induction allocs as [|a rest IH]; [done|].
  cbn [existsb]. rewrite (Hfresh a) by (by left). cbn [andb orb].
  assert (∀ a, a ∈ rest -> fresh v a = false) as Hrest
    by (intros b Hb; apply Hfresh; by right).
  specialize (IH Hrest). by injection IH as -> -> ->.
Qed.

(** A cycle whose reads succeed and whose allocations all have a
    deployment-status modify index at or below the latest evaluation index
    just read (or no deployment status) makes no call after the two reads:
    no write, no evaluation requested, nothing logged; it goes to the next
    cycle with that index. *)
Theorem watch_cycle_idle {World : Type}
    (handle : forall c : Call, World -> Resp c * World)
    (K : Constants) (w : deploymentWatcher) (fuel : nat) (wm v : N)
    (s s1 s2 : World) (allocs : list AllocListStub) (t1 t2 : list Event) :
  run handle (getAllocs w fuel wm) s = (Done (allocs, None), s1, t1) ->
  run handle (latestEvalIndex w) s1 = (Done (v, None), s2, t2) ->
  (∀ a ds, a ∈ allocs -> Alloc_DeploymentStatus a = Some ds ->
           ModifyIndex ds <= v) ->
  run handle (watch_cycle K w fuel wm) s
  = (Done (cycle_next v no_flags), s2, t1 ++ t2).
Proof.
  intros Hallocs Hindex Hold.
  rewrite (run_watch_cycle_reads handle K w fuel wm v s s1 s2 allocs t1 t2
             Hallocs Hindex).
  rewrite (spec_scan_none w v allocs Hold).
  rewrite run_reaction_idle by done. unfold after. cbn [fst snd].
  by rewrite app_nil_r.
Qed.

Lemma watch_cycle_idle_witness :
  let allocs := [Scripted.alloc "a1" "web" (Some false) 4;
                 {| Alloc_ID := "a2"; Alloc_TaskGroup := "web";
                    Alloc_DeploymentStatus := None |}] in
  let s := Scripted.cycle_script allocs 11 [Scripted.eval 5 3] 9 [] in
  let after_allocs := run Scripted.handle (getAllocs Scripted.watcher 3 0) s in
  let after_index :=
    run Scripted.handle (latestEvalIndex Scripted.watcher) after_allocs.1.2 in
  after_allocs = (Done (allocs, None), after_allocs.1.2, after_allocs.2) /\
  after_index = (Done (5, None), after_index.1.2, after_index.2) /\
  (∀ a ds, a ∈ allocs -> Alloc_DeploymentStatus a = Some ds ->
           ModifyIndex ds <= 5) /\
  run Scripted.handle (watch_cycle Scripted.consts Scripted.watcher 3 0) s
  = (Done (cycle_next 5 no_flags), after_index.1.2,
     after_allocs.2 ++ after_index.2).
Proof.
  intros allocs s after_allocs after_index.
  assert (∀ a ds, a ∈ allocs -> Alloc_DeploymentStatus a = Some ds ->
                  ModifyIndex ds <= 5) as Hold.
  { intros a ds Ha Hds.
    apply elem_of_cons in Ha as [->|Ha]; [injection Hds as <-; cbn; lia|].
    apply elem_of_cons in Ha as [->|Ha]; [discriminate Hds|].
    by apply elem_of_nil in Ha. }
  split; [reflexivity|]. split; [reflexivity|]. split; [exact Hold|].
  exact (watch_cycle_idle Scripted.handle Scripted.consts Scripted.watcher
           3 0 5 s after_allocs.1.2 after_index.1.2 allocs
           after_allocs.2 after_index.2 eq_refl eq_refl Hold).
Defined.

(** A cycle whose reads succeed and whose scan finds a fresh allocation but
    no fresh unhealthy one asks for a batched evaluation and does nothing
    else: its calls after the reads are those of createEvalBatched, it makes
    no status-update write, and it goes to the next cycle with the index it
    read. *)
Theorem watch_cycle_batches {World : Type}
    (handle : forall c : Call, World -> Resp c * World)
    (K : Constants) (w : deploymentWatcher) (fuel : nat) (wm v : N)
    (s s1 s2 : World) (allocs : list AllocListStub) (t1 t2 : list Event) :
  run handle (getAllocs w fuel wm) s = (Done (allocs, None), s1, t1) ->
  run handle (latestEvalIndex w) s1 = (Done (v, None), s2, t2) ->
  createEval_flag (spec_scan w v allocs) = true ->
  failDeployment_flag (spec_scan w v allocs) = false ->
  run handle (watch_cycle K w fuel wm) s
  = (Done (cycle_next v (spec_scan w v allocs)),
     (run handle createEvalBatched s2).1.2,
     t1 ++ t2 ++ (run handle createEvalBatched s2).2).
Proof.
  intros Hallocs Hindex Hcreate Hfail.
  rewrite (run_watch_cycle_reads handle K w fuel wm v s s1 s2 allocs t1 t2
             Hallocs Hindex).
  rewrite run_reaction_batch by done. unfold after. cbn [fst snd].
  by rewrite app_assoc.
Qed.

Lemma watch_cycle_batches_witness :
  let allocs := [Scripted.alloc "a1" "web" (Some true) 10;
                 Scripted.alloc "a2" "web" (Some false) 3] in
  let s := Scripted.cycle_script allocs 11 [Scripted.eval 5 3] 9 [] in
  let cycle :=
    run Scripted.handle (watch_cycle Scripted.consts Scripted.watcher 3 0) s in
  createEval_flag (spec_scan Scripted.watcher 5 allocs) = true /\
  failDeployment_flag (spec_scan Scripted.watcher 5 allocs) = false /\
  cycle.1.1 = Done (cycle_next 5 (spec_scan Scripted.watcher 5 allocs)) /\
  go_events cycle.2 = [go_batch] /\ status_writes cycle.2 = [].
Proof.
  intros allocs s cycle. split; [reflexivity|]. split; [reflexivity|].
  unfold cycle.
  rewrite (watch_cycle_batches Scripted.handle Scripted.consts Scripted.watcher
             3 0 5 s _ _ allocs _ _ eq_refl eq_refl eq_refl eq_refl).
  repeat split.
Defined.

(** A cycle whose reads succeed and whose scan sets the failure flag but
    not the rollback flag looks no job version up: it generates an
    evaluation and makes one status-update write to failed with the base
    description, that evaluation and no job; [latestEval] becomes the
    write's index, or stays at the index read, with the error logged, when
    the write fails. *)
Theorem watch_cycle_fails_without_rollback {World : Type}
    (handle : forall c : Call, World -> Resp c * World)
    (K : Constants) (w : deploymentWatcher) (fuel : nat) (wm v : N)
    (s s1 s2 : World) (allocs : list AllocListStub) (t1 t2 : list Event) :
  run handle (getAllocs w fuel wm) s = (Done (allocs, None), s1, t1) ->
  run handle (latestEvalIndex w) s1 = (Done (v, None), s2, t2) ->
  failDeployment_flag (spec_scan w v allocs) = true ->
  rollback_flag (spec_scan w v allocs) = false ->
  run handle (watch_cycle K w fuel wm) s
  = after (t1 ++ t2)
      (status_commit handle K w v (spec_scan w v allocs)
         (DeploymentStatusDescriptionFailedAllocations K) None s2).
Proof.
  intros Hallocs Hindex Hfail Hroll.
  rewrite (run_watch_cycle_reads handle K w fuel wm v s s1 s2 allocs t1 t2
             Hallocs Hindex).
  by rewrite run_reaction_fail.
Qed.

Lemma watch_cycle_fails_without_rollback_witness :
  let allocs := [Scripted.alloc "a1" "cache" (Some false) 10] in
  let s := Scripted.cycle_script allocs 11 [Scripted.eval 5 3] 9 [] in
  let cycle :=
    run Scripted.handle (watch_cycle Scripted.consts Scripted.watcher 3 0) s in
  failDeployment_flag (spec_scan Scripted.watcher 5 allocs) = true /\
  rollback_flag (spec_scan Scripted.watcher 5 allocs) = false /\
  cycle.1.1 = Done (cycle_next 30 (spec_scan Scripted.watcher 5 allocs)) /\
  version_lookups cycle.2 = [] /\
  status_writes cycle.2 =
    [(failed_update Scripted.consts Scripted.watcher
        "Failed due to unhealthy allocations",
      Some (evaluation_of Scripted.consts Scripted.watcher "u1"), None,
      (30, None))].
Proof.
  intros allocs s cycle. split; [reflexivity|]. split; [reflexivity|].
  unfold cycle.
  rewrite (watch_cycle_fails_without_rollback Scripted.handle Scripted.consts
             Scripted.watcher 3 0 5 s _ _ allocs _ _
             eq_refl eq_refl eq_refl eq_refl).
  repeat split.
Defined.

(** A cycle whose reads succeed, whose scan sets the failure and the
    rollback flag, and whose lookup finds a stable version makes one
    status-update write to failed that carries that version of the job, a
    fresh evaluation, and the base description followed by "rolling back to
    job version N" with N the version found. *)
Theorem watch_cycle_rolls_back {World : Type}
    (handle : forall c : Call, World -> Resp c * World)
    (K : Constants) (w : deploymentWatcher) (fuel : nat) (wm v : N)
    (s s1 s2 s3 : World) (allocs : list AllocListStub) (t1 t2 : list Event)
    (vr : JobVersionsResponse) (job : Job) :
  let args := {| JSR_JobID := Deployment_JobID (d w) |} in
  run handle (getAllocs w fuel wm) s = (Done (allocs, None), s1, t1) ->
  run handle (latestEvalIndex w) s1 = (Done (v, None), s2, t2) ->
  failDeployment_flag (spec_scan w v allocs) = true ->
  rollback_flag (spec_scan w v allocs) = true ->
  handle (GetJobVersions args zero_JobVersionsResponse) s2 = ((vr, None), s3) ->
  find Job_Stable (JVR_Versions vr) = Some job ->
  run handle (watch_cycle K w fuel wm) s
  = after (t1 ++ t2 ++
           [Ev (GetJobVersions args zero_JobVersionsResponse) (vr, None)])
      (status_commit handle K w v (spec_scan w v allocs)
         (Sprintf_rollback (DeploymentStatusDescriptionFailedAllocations K)
            (Job_Version job)) (Some job) s3).
Proof.
  intros args Hallocs Hindex Hfail Hroll Hlookup Hstable.
  rewrite (run_watch_cycle_reads handle K w fuel wm v s s1 s2 allocs t1 t2
             Hallocs Hindex).
  rewrite (run_reaction_rollback handle K w v _ s2 s3 vr job
             Hfail Hroll Hlookup Hstable).
  unfold after. cbn [fst snd]. by rewrite <- !app_assoc.
Qed.

Lemma watch_cycle_rolls_back_witness :
  let allocs := [Scripted.alloc "a1" "web" (Some false) 10] in
  let vr := {| JVR_Versions := [Scripted.job 3 false; Scripted.job 2 true] |} in
  let s := Scripted.cycle_script allocs 11 [] 5 [(vr, None)] in
  let cycle :=
    run Scripted.handle (watch_cycle Scripted.consts Scripted.watcher 3 5) s in
  failDeployment_flag (spec_scan Scripted.watcher 5 allocs) = true /\
  rollback_flag (spec_scan Scripted.watcher 5 allocs) = true /\
  find Job_Stable (JVR_Versions vr) = Some (Scripted.job 2 true) /\
  cycle.1.1 = Done (cycle_next 30 (spec_scan Scripted.watcher 5 allocs)) /\
  status_writes cycle.2 =
    [(failed_update Scripted.consts Scripted.watcher
        "Failed due to unhealthy allocations - rolling back to job version 2",
      Some (evaluation_of Scripted.consts Scripted.watcher "u1"),
      Some (Scripted.job 2 true), (30, None))].
Proof.
  intros allocs vr s cycle.
  split; [reflexivity|]. split; [reflexivity|]. split; [reflexivity|].
  unfold cycle.
  rewrite (watch_cycle_rolls_back Scripted.handle Scripted.consts
             Scripted.watcher 3 5 5 s _ _ _ allocs _ _ vr (Scripted.job 2 true)
             eq_refl eq_refl eq_refl eq_refl eq_refl eq_refl).
  repeat split.
Defined.

(** ** Cancellation *)

(** A cycle that makes the loop return has made no write and started no
    goroutine, and its last call is a limiter wait or a blocking query that
    reported [context.Canceled]. *)
Theorem watch_cycle_returns_on_cancel {World : Type}
    (handle : forall c : Call, World -> Resp c * World)
    (K : Constants) (w : deploymentWatcher) (fuel : nat) (wm : N)
    (s s' : World) (t : list Event) :
  run handle (watch_cycle K w fuel wm) s = (Done cycle_return, s', t) ->
  no_effects t ∧ ∃ e, last t = Some e ∧ reports_cancel e = true.
Proof. apply watch_cycle_exit. Qed.

Lemma watch_cycle_returns_on_cancel_witness :
  let cycle :=
    run Scripted.handle (watch_cycle Scripted.consts Scripted.watcher 3 7)
      Scripted.cancelled_at_evaluations in
  cycle = (Done cycle_return, cycle.1.2, cycle.2) /\
  no_effects cycle.2 /\
  last cycle.2 =
    Some (Ev (Evaluations {| JSR_JobID := "example" |}
                zero_JobEvaluationsResponse)
            (zero_JobEvaluationsResponse, Some context_Canceled)) /\
  length (log_lines cycle.2) = 1%nat.
Proof.
  intros cycle. split; [reflexivity|].
  destruct (watch_cycle_returns_on_cancel Scripted.handle Scripted.consts
              Scripted.watcher 3 7 Scripted.cancelled_at_evaluations
              cycle.1.2 cycle.2 eq_refl) as [Hq _].
  split; [exact Hq|]. split; reflexivity.
Defined.

Lemma watch_from_exit {World : Type}
    (handle : forall c : Call, World -> Resp c * World)
    (K : Constants) (w : deploymentWatcher) (cycles fuel : nat) :
  ∀ (wm : N) (s s' : World) (t : list Event),
    run handle (watch_from K w cycles fuel wm) s = (Done tt, s', t) ->
    ∃ e, last t = Some e ∧ reports_cancel e = true.
Proof.
  induction cycles as [|n IH]; intros wm s s' t; [discriminate|].
  cbn [watch_from]. rewrite run_bind.
  destruct (run handle (watch_cycle K w fuel wm) s) as [[o s1] t1] eqn:Hc.
  destruct o as [[|wm' fl]|msg|]; [| |discriminate..].
  - cbn [run]. intros [= <- <-]. rewrite app_nil_r.
    by destruct (watch_cycle_exit handle K w fuel wm s s1 t1 Hc) as [_ H].
  - destruct (run handle (watch_from K w n fuel wm') s1)
      as [[o2 s2] t2] eqn:Hrest.
    intros [= -> <- <-].
    destruct (IH wm' s1 s2 t2 Hrest) as (e & Hlast & Hcancel).
    exists e. split; [|done]. by rewrite last_app, Hlast.
Qed.

(** The watch loop returns only on cancellation: when a run of [watch]
    returns, the last call it made is a limiter wait or a blocking query
    that reported [context.Canceled]; after any other error the loop goes
    on. *)
Theorem watch_returns_only_on_cancel {World : Type}
    (handle : forall c : Call, World -> Resp c * World)
    (K : Constants) (w : deploymentWatcher) (cycles fuel : nat)
    (s s' : World) (t : list Event) :
  run handle (watch K w cycles fuel) s = (Done tt, s', t) ->
  ∃ e, last t = Some e ∧ reports_cancel e = true.
Proof. apply watch_from_exit. Qed.

Lemma watch_returns_only_on_cancel_witness :
  let loop :=
    run Scripted.handle (watch Scripted.consts Scripted.watcher 5 3)
      Scripted.three_cycles in
  loop = (Done tt, loop.1.2, loop.2) /\
  ∃ e, last loop.2 = Some e ∧ reports_cancel e = true.
Proof.
  intros loop. split; [reflexivity|].
  exact (watch_returns_only_on_cancel Scripted.handle Scripted.consts
           Scripted.watcher 5 3 Scripted.three_cycles loop.1.2 loop.2 eq_refl).
Defined.

(** ** A failed allocation query *)

(** When getAllocs fails with an error other than cancellation, the cycle
    logs it and goes on without allocations: if the read of the latest
    evaluation index then succeeds, the scan sets no flag, nothing is
    written, and the loop continues with the index read. *)
Theorem watch_cycle_survives_allocs_error {World : Type}
    (handle : forall c : Call, World -> Resp c * World)
    (K : Constants) (w : deploymentWatcher) (fuel : nat) (wm v : N)
    (s s1 s2 s3 : World) (allocs : list AllocListStub) (t1 t2 : list Event)
    (msg : string) (u : unit) :
  let log :=
    logger_Printf
      "[ERR] nomad.deployment_watcher: failed to retrieve allocations for deployment %q: %v"
      [arg_string (Deployment_ID (d w)); arg_error (errors_New msg)] in
  run handle (getAllocs w fuel wm) s
    = (Done (allocs, Some (errors_New msg)), s1, t1) ->
  handle log s1 = (u, s2) ->
  run handle (latestEvalIndex w) s2 = (Done (v, None), s3, t2) ->
  run handle (watch_cycle K w fuel wm) s
  = (Done (cycle_next v no_flags), s3, t1 ++ [Ev log u] ++ t2).
Proof.
  intros log Hallocs Hlog Hindex.
  destruct (getAllocs_result handle w fuel wm s s1 allocs _ t1 Hallocs)
    as (_ & _ & Hnil & _).
  rewrite Hnil in * by done.
  unfold watch_cycle. rewrite run_bind, Hallocs. cbn [log_if_error].
  rewrite run_bind. unfold call at 1. cbn [run]. fold log. rewrite Hlog.
  rewrite run_bind, Hindex. cbn [log_if_error bind scan_allocs].
  rewrite run_reaction_idle by done. by rewrite app_nil_r.
Qed.

Lemma watch_cycle_survives_allocs_error_witness :
  let s := Scripted.reads []
             [(zero_AllocListResponse, Some (errors_New "no leader"))]
             [({| JER_Evaluations := [Scripted.eval 5 3]; JER_Index := 9 |},
               None)] [] in
  let cycle :=
    run Scripted.handle (watch_cycle Scripted.consts Scripted.watcher 3 7) s in
  (run Scripted.handle (getAllocs Scripted.watcher 3 7) s).1.1
    = Done ([], Some (errors_New "no leader")) /\
  cycle.1.1 = Done (cycle_next 5 no_flags) /\
  length (log_lines cycle.2) = 1%nat /\ no_effects cycle.2.
Proof.
  intros s cycle. split; [reflexivity|]. unfold cycle.
  rewrite (watch_cycle_survives_allocs_error Scripted.handle Scripted.consts
             Scripted.watcher 3 7 5 s _ _ _ [] _ _ "no leader" tt
             eq_refl eq_refl eq_refl).
  repeat split.
Defined.

(** ** The effects of a cycle, in any environment *)

Section CycleEffects.
Context {World : Type}.
Variable handle : forall c : Call, World -> Resp c * World.
Variable K : Constants.
Variable w : deploymentWatcher.

Lemma no_effects_cycle_effects (t : list Event) :
  no_effects t -> cycle_effects K w t.
Proof.
  intros (H1 & H2 & H3 & H4). unfold cycle_effects.
  rewrite H1, H2, H3, H4. repeat split; [cbn; lia|by left].
Qed.

Lemma cycle_effects_after (t0 t : list Event) :
  no_effects t0 -> cycle_effects K w t -> cycle_effects K w (t0 ++ t).
Proof.
  unfold no_effects, cycle_effects, status_writes, health_writes,
    Machine.eval_writes, go_events.
  intros (H1 & H2 & H3 & H4) (H5 & H6 & H7 & H8).
  rewrite !omap_app, H1, H2, H3, H4, H5, H6. done.
Qed.

Lemma reaction_effects (v : N) (fl : scan_flags) (s : World) :
  cycle_effects K w (run handle (cycle_reaction K w v fl) s).2.
Proof.
  unfold cycle_reaction, cycle_effects.
  destruct fl as [c f r]; cbn.
  repeat (match goal with
          | |- context [handle ?c ?s] =>
              destruct (handle c s) as [? ?] eqn:?
          | |- context [match ?x with _ => _ end] => is_var x; destruct x
          | |- context [find ?f ?l] => destruct (find f l) eqn:?
          end; cbn).
  all: repeat split; try done; try lia; try (by left).
  all: right; (split; [done|]); do 4 eexists;
    unfold failed_update, evaluation_of, getDeploymentStatusUpdate;
    reflexivity.
Qed.

Lemma getAllocs_trace_no_effects (fuel : nat) (index : N) (s : World) :
  no_effects (run handle (getAllocs w fuel index) s).2.
Proof.
  pose proof (getAllocs_loop_post handle index
                {| DSR_DeploymentID := Deployment_ID (d w);
                   DSR_MinQueryIndex := index |}
                fuel zero_AllocListResponse s) as H.
  fold (getAllocs w fuel index) in H.
  destruct (run handle (getAllocs w fuel index) s)
    as [[[[allocs [e|]]|msg|] s1] t]; cbn in H |- *; [| |done|].
  - destruct H as (_ & t0 & r' & Hr & _ & [->|[r'' ->]]);
      (apply no_effects_app; [by eapply rounds_no_effects|done]).
  - destruct H as (r' & Hr & _). by eapply rounds_no_effects.
  - destruct H as (r' & Hr & _). by eapply rounds_no_effects.
Qed.

Lemma cycle_tail_effects (allocs : list AllocListStub) (s : World) :
  cycle_effects K w
    (run handle
       (let* (latestEval, err) := latestEvalIndex w in
        match err with
        | Some context_Canceled => Ret cycle_return
        | _ =>
            log_if_error
              "[ERR] nomad.deployment_watcher: failed to determine last evaluation index for job %q: %v"
              (Deployment_JobID (d w)) err ;;
            cycle_reaction K w latestEval
              (scan_allocs w latestEval allocs no_flags)
        end)%prog s).2.
Proof.
  rewrite run_bind.
  destruct (latestEvalIndex_result handle w s)
    as (v & err & s1 & t1 & -> & Hq & _ & _).
  destruct err as [[|msg]|]; cbn [log_if_error bind call run].
  - rewrite app_nil_r. by apply no_effects_cycle_effects.
  - destruct (handle (logger_Printf _ _) s1) as [u s2].
    pose proof (reaction_effects v (scan_allocs w v allocs no_flags) s2) as H.
    destruct (run handle (cycle_reaction K w v _) s2) as [[o s3] t3].
    cbn [snd] in *. apply cycle_effects_after; [done|].
    by apply (cycle_effects_after [_]).
  - pose proof (reaction_effects v (scan_allocs w v allocs no_flags) s1) as H.
    destruct (run handle (cycle_reaction K w v _) s1) as [[o s3] t3].
    cbn [snd] in *. by apply cycle_effects_after.
Qed.

Lemma watch_cycle_trace_effects (fuel : nat) (wm : N) (s : World) :
  cycle_effects K w (run handle (watch_cycle K w fuel wm) s).2.
Proof.
  unfold watch_cycle. rewrite run_bind.
  pose proof (getAllocs_trace_no_effects fuel wm s) as Hq.
  destruct (run handle (getAllocs w fuel wm) s) as [[o1 s1] t1].
  cbn [snd] in Hq.
  destruct o1 as [[allocs err]|msg|];
    [|by apply no_effects_cycle_effects..].
  destruct err as [[|msg]|]; cbn [log_if_error bind call run].
  - rewrite app_nil_r. by apply no_effects_cycle_effects.
  - destruct (handle (logger_Printf _ _) s1) as [u s2].
    pose proof (cycle_tail_effects allocs s2) as H.
    match goal with |- context [run handle ?p s2] =>
      destruct (run handle p s2) as [[o s3] t3] end.
    cbn [snd] in *. apply cycle_effects_after; [done|].
    by apply (cycle_effects_after [_]).
  - pose proof (cycle_tail_effects allocs s1) as H.
    match goal with |- context [run handle ?p s1] =>
      destruct (run handle p s1) as [[o s3] t3] end.
    cbn [snd] in *. by apply cycle_effects_after.
Qed.

End CycleEffects.

(** In any environment and whatever the reads return, a cycle of the watch
    loop makes at most one status-update write, which sets the watcher's own
    deployment to failed and carries an evaluation for the watcher's job;
    it makes no allocation-health write and no evaluation-creation write of
    its own, starts at most one goroutine, and never both writes and starts
    a goroutine. *)
Theorem watch_cycle_effects {World : Type}
    (handle : forall c : Call, World -> Resp c * World)
    (K : Constants) (w : deploymentWatcher) (fuel : nat) (wm : N)
    (s : World) :
  cycle_effects K w (run handle (watch_cycle K w fuel wm) s).2.
Proof. apply watch_cycle_trace_effects. Qed.

(** ** The closure of createEvalBatched *)

(** In any environment the closure first sleeps for evalBatchPeriod, then
    clears [outstandingBatch] under the mutex, releases the mutex, and only
    then generates an evaluation and makes one evaluation-creation write; a
    failed write is logged and not retried. *)
Theorem batch_closure_run {World : Type}
    (handle : forall c : Call, World -> Resp c * World)
    (K : Constants) (w : deploymentWatcher) (s : World) :
  let '(_, s1) := handle (time_Sleep evalBatchPeriod) s in
  let '(_, s2) := handle l_Lock s1 in
  let '(_, s3) := handle (store_outstandingBatch false) s2 in
  let '(_, s4) := handle l_Unlock s3 in
  let '(id, s5) := handle GenerateUUID s4 in
  let write := createEvaluation (evaluation_of K w id) in
  let '(r, s6) := handle write s5 in
  let steps :=
    [Ev (time_Sleep evalBatchPeriod) tt; Ev l_Lock tt;
     Ev (store_outstandingBatch false) tt; Ev l_Unlock tt;
     Ev GenerateUUID id; Ev write r] in
  match r.2 with
  | None => run handle (batch_closure K w) s = (Done tt, s6, steps)
  | Some e =>
      let log :=
        logger_Printf
          "[ERR] nomad.deployment_watcher: failed to create evaluation for deployment %q: %v"
          [arg_string (Deployment_ID (d w)); arg_error e] in
      let '(_, s7) := handle log s6 in
      run handle (batch_closure K w) s = (Done tt, s7, steps ++ [Ev log tt])
  end.
Proof.
  unfold batch_closure, createEval, getEval. cbn.
  destruct (handle (time_Sleep evalBatchPeriod) s) as [[] s1].
  destruct (handle l_Lock s1) as [[] s2].
  destruct (handle (store_outstandingBatch false) s2) as [[] s3].
  destruct (handle l_Unlock s3) as [[] s4].
  destruct (handle GenerateUUID s4) as [id s5]. cbn.
  fold (evaluation_of K w id).
  destruct (handle (createEvaluation (evaluation_of K w id)) s5)
    as [[i [e|]] s6]; cbn; [|done].
  by destruct (handle (logger_Printf _ _) s6) as [[] s7].
Qed.

(** ** Accounting for the batched evaluations *)

Section BatchAccounting.
Context {World : Type}.
Variable ext : forall c : Call, World -> Resp c * World.
Variable K : Constants.
Variable w : deploymentWatcher.

Lemma batch_closure_unfold :
  batch_closure K w = Do (time_Sleep evalBatchPeriod) (fun _ => batch_rest K w).
Proof. reflexivity. Qed.

Lemma run_goroutine_closure (m : Machine.state) :
  Machine.run_goroutine ext K w (batch_closure K w) m =
  Machine.set_goroutines
    (Machine.goroutines m
     ++ [((Machine.clock m + evalBatchPeriod)%Z, batch_rest K w)])
    (Machine.record (Ev (time_Sleep evalBatchPeriod) tt) m).
Proof. reflexivity. Qed.

Lemma run_goroutine_rest (m : Machine.state) :
  let m' := Machine.run_goroutine ext K w (batch_rest K w) m in
  Machine.mutex_held m' = false ∧
  Machine.goroutines m' = Machine.goroutines m ∧
  Machine.clock m' = Machine.clock m ∧
  Machine.outstandingBatch m' = false ∧
  ∃ t, Machine.trace m' = Machine.trace m ++ t ∧ go_events t = [] ∧
       length (Machine.eval_writes t) = 1%nat.
Proof.
  unfold batch_rest, createEval, getEval. cbn.
  unfold Machine.handle, Machine.answer. cbn.
  destruct (ext GenerateUUID (Machine.world m)) as [id s1]. cbn.
  unfold Machine.handle, Machine.answer. cbn.
  destruct (ext (createEvaluation _) s1) as [[i [e|]] s2]; cbn.
  - unfold Machine.handle, Machine.answer. cbn.
    destruct (ext (logger_Printf _ _) s2) as [u s3]. cbn.
    repeat split. eexists. rewrite <- !app_assoc. split; [reflexivity|].
    by split.
  - repeat split. eexists. rewrite <- !app_assoc. split; [reflexivity|].
    by split.
Qed.

Lemma perform_accounted (a : Machine.action) (m : Machine.state) :
  batches_accounted K w m ->
  batches_accounted K w (Machine.perform ext K w a m).
Proof.
  intros (Hfree & Hpool & Hcount). destruct a as [|dt|i]; cbn [Machine.perform].
  - rewrite trigger_eq. cbv zeta.
    destruct (Machine.outstandingBatch m); unfold batches_accounted;
      cbn [Machine.mutex_held Machine.goroutines Machine.trace];
      (split; [done|]); (split; [|unfold go_events, Machine.eval_writes in *;
                                 rewrite !omap_app; cbn; rewrite ?app_nil_r]).
    + done.
    + done.
    + apply Forall_app. split; [done|]. apply Forall_singleton. by left.
    + rewrite !length_app. cbn. lia.
  - done.
  - unfold Machine.resume.
    destruct (Machine.goroutines m !! i) as [[ready p]|] eqn:Hi; [|done].
    destruct (ready <=? Machine.clock m)%Z; [|done].
    assert (length (delete i (Machine.goroutines m))
            = (length (Machine.goroutines m) - 1)%nat) as Hlen
      by (by apply length_delete).
    assert (0 < length (Machine.goroutines m))%nat as Hpos
      by (apply lookup_lt_Some in Hi; lia).
    pose proof (Forall_lookup_1 _ _ _ _ Hpool Hi) as [Hp|Hp];
      cbn [snd] in Hp; subst p.
    + rewrite run_goroutine_closure. unfold batches_accounted.
      cbn [Machine.set_goroutines Machine.record Machine.mutex_held
           Machine.goroutines Machine.trace].
      split; [done|]. split.
      * apply Forall_app. split; [by apply Forall_delete|].
        apply Forall_singleton. by right.
      * unfold go_events, Machine.eval_writes in *. rewrite !omap_app.
        cbn. rewrite !app_nil_r, length_app, Hlen. cbn. lia.
    + set (m0 := Machine.set_goroutines (delete i (Machine.goroutines m)) m).
      destruct (run_goroutine_rest m0) as (H1 & H2 & _ & _ & t & H3 & H4 & H5).
      unfold batches_accounted. rewrite H1, H2, H3. subst m0.
      cbn [Machine.goroutines Machine.set_goroutines Machine.trace].
      split; [done|]. split; [by apply Forall_delete|].
      unfold go_events, Machine.eval_writes in *.
      rewrite !omap_app, !length_app, H4, H5, Hlen. cbn. lia.
Qed.

Lemma reachable_accounted (s : World) (m : Machine.state) :
  rtc (Machine.step ext K w) (Machine.init s) m -> batches_accounted K w m.
Proof.
  revert m. apply rtc_ind_r.
  - repeat split. constructor.
  - intros m m' _ Hstep Hm. destruct (step_perform ext K w _ _ Hstep) as [a ->].
    by apply perform_accounted.
Qed.

End BatchAccounting.

(** In every state the watcher's goroutines can reach, the mutex is free
    between steps, and the closures started so far are accounted for: each
    one is still waiting or has made exactly one evaluation-creation write,
    so no batched evaluation is dropped and none is written twice. *)
Theorem batched_evaluations_accounted {World : Type}
    (ext : forall c : Call, World -> Resp c * World)
    (K : Constants) (w : deploymentWatcher) (s : World)
    (m : Machine.state) :
  rtc (Machine.step ext K w) (Machine.init s) m ->
  Machine.mutex_held m = false ∧
  length (go_events (Machine.trace m))
  = (length (Machine.goroutines m)
     + length (Machine.eval_writes (Machine.trace m)))%nat.
Proof.
  intros Hreach.
  destruct (reachable_accounted ext K w s m Hreach) as (H1 & _ & H2).
  by split.
Qed.

Lemma performs_reachable {World : Type}
    (ext : forall c : Call, World -> Resp c * World)
    (K : Constants) (w : deploymentWatcher) (l : list Machine.action) :
  ∀ m, forallb Machine.allowed l = true ->
       rtc (Machine.step ext K w) m (Machine.performs ext K w l m).
Proof.
  induction l as [|a l IH]; intros m Hl; [constructor|].
  cbn [forallb] in Hl. apply andb_prop in Hl as [Ha Hl].
  unfold Machine.performs. cbn [foldl]. eapply rtc_l; [|by apply IH].
  destruct a as [|dt|i]; cbn [Machine.perform]; constructor.
  by apply Z.leb_le.
Qed.

Lemma batched_evaluations_accounted_witness :
  let m :=
    Machine.performs Scripted.handle Scripted.consts Scripted.watcher
      (Scripted.two_triggers ++ Scripted.window_over) Scripted.fresh_watcher in
  rtc (Machine.step Scripted.handle Scripted.consts Scripted.watcher)
    Scripted.fresh_watcher m /\
  Machine.mutex_held m = false /\
  length (go_events (Machine.trace m)) = 2%nat /\
  length (Machine.goroutines m) = 0%nat /\
  length (Machine.eval_writes (Machine.trace m)) = 2%nat.
Proof.
  intros m.
  assert (rtc (Machine.step Scripted.handle Scripted.consts Scripted.watcher)
            Scripted.fresh_watcher m) as Hreach
    by (by apply performs_reachable).
  split; [exact Hreach|].
  destruct (batched_evaluations_accounted Scripted.handle Scripted.consts
              Scripted.watcher _ m Hreach) as [Hfree Hcount].
  split; [exact Hfree|]. repeat split.
Defined.

(** ** The command line (main.go) *)

Lemma make_and_copy (args : list string) :
  let newArgs := <[0%nat := "version"]> (replicate (length args + 1) "") in
  take 1 newArgs ++ Main.copy (drop 1 newArgs) args = "version" :: args.
Proof.
  rewrite Nat.add_1_r. cbn [replicate].
  change (<[0%nat:="version"]> ("" :: ?l)) with ("version" :: l).
  cbn [take drop app]. unfold Main.copy. rewrite take_0, drop_0. cbn [app].
  rewrite length_replicate, take_ge by lia.
  rewrite drop_ge by (by rewrite length_replicate). by rewrite app_nil_r.
Qed.

Lemma shortcut_version_spec (rest args : list string) :
  Main.shortcut_version rest args =
  if existsb Main.is_version_flag rest then "version" :: args else args.
Proof.
  induction rest as [|arg rest IH]; [done|].
  cbn [Main.shortcut_version existsb].
  destruct (Main.is_version_flag arg); [|exact IH].
  apply make_and_copy.
Qed.

Lemma include_commands_spec (keys : list string) :
  ∀ acc, Main.include_commands keys acc
         = acc ++ filter (fun k => k ∉ Main.hidden) keys.
Proof.
  induction keys as [|k keys IH]; intros acc; cbn [Main.include_commands].
  - by rewrite filter_nil, app_nil_r.
  - rewrite filter_cons. case_bool_decide as Hk.
    + rewrite decide_False by (intros H; by apply H). apply IH.
    + rewrite decide_True by done. rewrite IH. by rewrite <- app_assoc.
Qed.

(** RunCustom hands the CLI the arguments with "version" put in front when
    one of them is -v, -version or --version (once, however many there are,
    and keeping every argument), all the commands, and a help list made of
    the command names in iteration order without the hidden ones; it
    returns 1 with a message when the CLI reports an error and the CLI's
    exit code otherwise. *)
Theorem RunCustom_builds_cli {CommandFactory : Type}
    (cli_Run : @Main.CLI CommandFactory -> Z * option string)
    (range : gmap string CommandFactory -> list string)
    (args : list string) (commands : gmap string CommandFactory) :
  Main.RunCustom cli_Run range args commands =
  let cli :=
    {| Main.CLI_Args :=
         if existsb Main.is_version_flag args then "version" :: args else args;
       Main.CLI_Commands := commands;
       Main.CLI_HelpName := "nomad";
       Main.CLI_HelpInclude :=
         filter (fun k => k ∉ Main.hidden) (range commands) |} in
  match cli_Run cli with
  | (_, Some e) =>
      (1%Z, Some ("Error executing CLI: " +:+ e +:+ Main.newline))
  | (exitCode, None) => (exitCode, None)
  end.
Proof.
  unfold Main.RunCustom.
  rewrite shortcut_version_spec, include_commands_spec. cbn [app].
  by destruct (cli_Run _) as [exitCode [e|]].
Qed.

(** The help list does not depend, as a set, on the order in which the
    command map is iterated: when the iteration yields every key of the map
    once, the list holds every command of the map that is not hidden, once,
    and nothing else; two iteration orders give the same names up to
    order. *)
Theorem help_list_hides_commands {CommandFactory : Type}
    (commands : gmap string CommandFactory) (keys keys' : list string) :
  NoDup keys ->
  (∀ k, k ∈ keys <-> is_Some (commands !! k)) ->
  keys ≡ₚ keys' ->
  NoDup (Main.include_commands keys []) ∧
  (∀ k, k ∈ Main.include_commands keys [] <->
        is_Some (commands !! k) ∧ k ∉ Main.hidden) ∧
  Main.include_commands keys [] ≡ₚ Main.include_commands keys' [].
Proof.
  intros Hnd Hkeys Hperm. rewrite !include_commands_spec. cbn [app].
  split; [by apply NoDup_filter|]. split.
  - intros k. rewrite list_elem_of_filter, Hkeys. tauto.
  - by rewrite Hperm.
Qed.

Lemma help_list_hides_commands_witness :
  let keys := Scripted.range_of Scripted.commands in
  NoDup keys /\
  (∀ k, k ∈ keys <-> is_Some (Scripted.commands !! k)) /\
  (keys ≡ₚ reverse keys) /\
  ("check" ∉ Main.include_commands keys []) /\
  ("run" ∈ Main.include_commands keys []) /\
  (Main.include_commands keys [] ≡ₚ Main.include_commands (reverse keys) []).
Proof.
  intros keys.
  assert (NoDup keys) as Hnd by apply NoDup_fst_map_to_list.
  assert (∀ k, k ∈ keys <-> is_Some (Scripted.commands !! k)) as Hkeys.
  { intros k. unfold keys, Scripted.range_of. rewrite list_elem_of_fmap. split.
    - intros [[k' v] [-> Hin]]. apply elem_of_map_to_list in Hin. by eexists.
    - intros [v Hv]. exists (k, v). split; [done|].
      by apply elem_of_map_to_list. }
  assert (keys ≡ₚ reverse keys) as Hperm by (by rewrite reverse_Permutation).
  destruct (help_list_hides_commands Scripted.commands keys (reverse keys)
              Hnd Hkeys Hperm) as (_ & Hin & Hsame).
  split; [exact Hnd|]. split; [exact Hkeys|]. split; [exact Hperm|].
  split; [|split; [|exact Hsame]].
  - rewrite Hin. intros [_ Hhidden]. apply Hhidden.
    apply (bool_decide_unpack _). by vm_compute.
  - apply Hin. split; [by eexists|].
    apply (bool_decide_unpack _). by vm_compute.
Defined.

(** ** The description of a rollback *)

Lemma append_inj_r (p a b : string) : p +:+ a = p +:+ b -> a = b.
Proof. induction p as [|c p IH]; cbn; [done|]. intros [= H]. by apply IH. Qed.

Lemma N_to_uint_nonnil (n : N) : N.to_uint n ≠ Decimal.Nil.
Proof.
  destruct n as [|p]; [discriminate|]. apply DecimalPos.Unsigned.to_uint_nonnil.
Qed.

(** The description of a rollback names the version: for one base
    description, different job versions give different descriptions. *)
Theorem Sprintf_rollback_names_version (desc : string) (v1 v2 : N) :
  v1 ≠ v2 -> Sprintf_rollback desc v1 ≠ Sprintf_rollback desc v2.
Proof.
  intros Hne Heq. apply Hne. unfold Sprintf_rollback in Heq.
  apply append_inj_r, append_inj_r in Heq.
  apply DecimalN.Unsigned.to_uint_inj.
  pose proof (NilZero.usu _ (N_to_uint_nonnil v1)) as H1.
  pose proof (NilZero.usu _ (N_to_uint_nonnil v2)) as H2.
  rewrite Heq in H1. rewrite H1 in H2. by injection H2.
Qed.

Lemma Sprintf_rollback_names_version_witness :
  (9 : N) ≠ 10 /\
  Sprintf_rollback "Failed due to unhealthy allocations" 9
  ≠ Sprintf_rollback "Failed due to unhealthy allocations" 10 /\
  Sprintf_rollback "Failed due to unhealthy allocations" 10
  = "Failed due to unhealthy allocations - rolling back to job version 10".
Proof.
  assert ((9 : N) ≠ 10) as Hne by discriminate.
  split; [exact Hne|]. split; [|reflexivity].
  exact (Sprintf_rollback_names_version _ 9 10 Hne).
Defined.

(** ** The field outstandingBatch *)

(** On a watcher that starts with [outstandingBatch] clear, the field is
    clear in every state its goroutines can reach, since no statement
    stores true in it; every call of createEvalBatched therefore starts one
    more closure. *)
Theorem createEvalBatched_never_marks {World : Type}
    (ext : forall c : Call, World -> Resp c * World)
    (K : Constants) (w : deploymentWatcher) (s : World)
    (m : Machine.state) :
  rtc (Machine.step ext K w) (Machine.init s) m ->
  Machine.outstandingBatch m = false ∧
  Machine.goroutines (Machine.trigger ext K w m)
  = Machine.goroutines m ++ [(Machine.clock m, batch_closure K w)].
Proof.
  intros Hreach. split.
  - by eapply outstandingBatch_never_set.
  - by eapply trigger_always_spawns.
Qed.

Lemma createEvalBatched_never_marks_witness :
  let m :=
    Machine.performs Scripted.handle Scripted.consts Scripted.watcher
      Scripted.two_triggers Scripted.fresh_watcher in
  rtc (Machine.step Scripted.handle Scripted.consts Scripted.watcher)
    Scripted.fresh_watcher m /\
  Machine.outstandingBatch m = false /\
  length (Machine.goroutines m) = 2%nat /\
  length (Machine.goroutines
            (Machine.trigger Scripted.handle Scripted.consts Scripted.watcher m))
  = 3%nat.
Proof.
  intros m.
  assert (rtc (Machine.step Scripted.handle Scripted.consts Scripted.watcher)
            Scripted.fresh_watcher m) as Hreach
    by (by apply performs_reachable).
  split; [exact Hreach|].
  destruct (createEvalBatched_never_marks Scripted.handle Scripted.consts
              Scripted.watcher _ m Hreach) as [Hflag Hspawn].
  split; [exact Hflag|]. split; [reflexivity|].
  rewrite Hspawn. reflexivity.
Defined.

(** ** A failed read of the latest evaluation index *)

(** When latestEvalIndex fails with an error other than cancellation, it
    returns index 0, the cycle logs the error and goes on with [latestEval]
    at 0: the scan then takes every allocation with a non-zero
    deployment-status modify index as fresh, whatever [latestEval] was when
    the cycle started. *)
Theorem watch_cycle_index_error_scans_from_zero {World : Type}
    (handle : forall c : Call, World -> Resp c * World)
    (K : Constants) (w : deploymentWatcher) (fuel : nat) (wm v : N)
    (s s1 s2 : World) (allocs : list AllocListStub) (t1 t2 : list Event)
    (msg : string) :
  let format :=
    "[ERR] nomad.deployment_watcher: failed to determine last evaluation index for job %q: %v" in
  let args := [arg_string (Deployment_JobID (d w));
               arg_error (errors_New msg)] in
  run handle (getAllocs w fuel wm) s = (Done (allocs, None), s1, t1) ->
  run handle (latestEvalIndex w) s1
    = (Done (v, Some (errors_New msg)), s2, t2) ->
  v = 0 ∧
  run handle (watch_cycle K w fuel wm) s =
  after (t1 ++ t2 ++ [Ev (logger_Printf format args)
                         (handle (logger_Printf format args) s2).1])
    (run handle (cycle_reaction K w 0 (spec_scan w 0 allocs))
       (handle (logger_Printf format args) s2).2).
Proof. apply run_watch_cycle_index_error. Qed.

Lemma watch_cycle_index_error_scans_from_zero_witness :
  let allocs := [Scripted.alloc "a1" "cache" (Some true) 4] in
  let s := Scripted.with_writes
             (Scripted.reads []
                [({| ALR_Allocations := allocs; ALR_Index := 8 |}, None)]
                [(zero_JobEvaluationsResponse, Some (errors_New "no leader"))]
                [])
             [] [] in
  let after_allocs := run Scripted.handle (getAllocs Scripted.watcher 3 7) s in
  let after_index :=
    run Scripted.handle (latestEvalIndex Scripted.watcher) after_allocs.1.2 in
  let cycle :=
    run Scripted.handle (watch_cycle Scripted.consts Scripted.watcher 3 7) s in
  after_allocs.1.1 = Done (allocs, None) /\
  after_index.1.1 = Done (0, Some (errors_New "no leader")) /\
  spec_scan Scripted.watcher 7 allocs = no_flags /\
  cycle.1.1 = Done (cycle_next 0 (spec_scan Scripted.watcher 0 allocs)) /\
  go_events cycle.2 = [go_batch].
Proof.
  intros allocs s after_allocs after_index cycle.
  split; [reflexivity|]. split; [reflexivity|]. split; [reflexivity|].
  destruct (watch_cycle_index_error_scans_from_zero Scripted.handle
              Scripted.consts Scripted.watcher 3 7 0 s after_allocs.1.2
              after_index.1.2 allocs after_allocs.2 after_index.2 "no leader"
              eq_refl eq_refl) as [_ H].
  unfold cycle. rewrite H. split; reflexivity.
Defined.
